(** * wanna-bet: the bet aggregation and formatting pipeline, and the bot's
      retrieve-transaction endpoint

    Shallow embedding of
      - [website/src/services/services.ts]: the GraphQL getter, the four raw
        fetchers, [formatBet] and the aggregate fetchers over pages of bets
        and [getFormattedBetFromId],
      - the expressions of [website/src/components/bet-list-card.tsx] that
        compute, and
      - the bot's [retrieveTxn] handler,
    together with the JavaScript built-ins and library functions they call
    ([Number], [BigInt], [Date], [JSON.stringify], [Promise.all], viem's
    [formatUnits], zod's [safeParse]).

    Conventions.
      - A JavaScript string is a [string] of bytes; the numeric parsers
        recognise the white space below U+0080.
      - A JavaScript [number] is an IEEE-754 binary64 value, a [spec_float]
        of precision 53 and maximal exponent 1024.
      - A [bigint] is a [Z].
      - An [async] function is a computation over the trace of the events it
        performs (console output and calls to the outside world); it ends
        resolved with a value or rejected with an error. The events of
        functions that run concurrently are listed function by function, in
        the order in which the functions are called.
      - What the code imports from other files of the repository (the query
        generators, [getPreferredAlias], the API URL, the ABIs) and from
        libraries that talk to the network ([fetch], [readContracts]) is a
        field of the record [World]; viem's [isAddress] is a variable of the
        section of [retrieveTxn]. *)

From Stdlib Require Import ZArith List String Ascii Bool Lia QArith.
From Stdlib Require Import SpecFloat.
Import ListNotations.

Local Open Scope string_scope.
Local Open Scope Z_scope.
Local Set Warnings "-register-all".

(* ================================================================== *)
(** * JavaScript built-ins *)
(* ================================================================== *)

Module Js.

(** ** Errors and completion of a computation *)

(** An [Error] object: its [name], its [message] and its optional [cause]. *)
Inductive JsError : Type :=
| mkJsError (name message : string) (cause : option JsError).

Definition error_name (e : JsError) : string :=
  match e with mkJsError n _ _ => n end.
Definition error_message (e : JsError) : string :=
  match e with mkJsError _ m _ => m end.
Definition error_cause (e : JsError) : option JsError :=
  match e with mkJsError _ _ c => c end.

(** [new Error(msg)]: no cause is attached. *)
Definition new_Error (msg : string) : JsError := mkJsError "Error" msg None.
Definition new_TypeError (msg : string) : JsError := mkJsError "TypeError" msg None.
Definition new_SyntaxError (msg : string) : JsError := mkJsError "SyntaxError" msg None.

Definition is_empty (s : string) : bool :=
  match s with EmptyString => true | String _ _ => false end.

(** [Error.prototype.toString], used by [msg + ": " + error]. *)
Definition error_toString (e : JsError) : string :=
  let n := error_name e in
  let m := error_message e in
  if is_empty n then m
  else if is_empty m then n
  else n ++ ": " ++ m.

(** How a call, or a promise, completes. *)
Inductive Outcome (A : Type) : Type :=
| Resolved (a : A)
| Rejected (e : JsError).
Arguments Resolved {A} a.
Arguments Rejected {A} e.

(** ** Characters and digits *)

(** White space and line terminators below U+0080. *)
Definition is_white_space (c : ascii) : bool :=
  let n := nat_of_ascii c in
  orb (Nat.eqb n 32) (andb (Nat.leb 9 n) (Nat.leb n 13)).

Fixpoint trim_start (s : string) : string :=
  match s with
  | EmptyString => EmptyString
  | String c r => if is_white_space c then trim_start r else s
  end.

Fixpoint trim_end (s : string) : string :=
  match s with
  | EmptyString => EmptyString
  | String c r =>
      let r' := trim_end r in
      if andb (is_white_space c) (is_empty r') then EmptyString
      else String c r'
  end.

(** [String.prototype.trim]. *)
Definition trim (s : string) : string := trim_end (trim_start s).

(** The value of [c] as a digit in base [radix], if it is one. *)
Definition digit_value (radix : Z) (c : ascii) : option Z :=
  let n := Z.of_nat (nat_of_ascii c) in
  let v :=
    if andb (48 <=? n) (n <=? 57) then n - 48
    else if andb (97 <=? n) (n <=? 122) then n - 87
    else if andb (65 <=? n) (n <=? 90) then n - 55
    else radix in
  if v <? radix then Some v else None.

Definition is_digit (radix : Z) (c : ascii) : bool :=
  match digit_value radix c with Some _ => true | None => false end.

(** Value of a string of digits, most significant first; [None] when a
    character is not a digit. The empty string has value [acc]. *)
Fixpoint digits_value_acc (radix : Z) (s : string) (acc : Z) : option Z :=
  match s with
  | EmptyString => Some acc
  | String c r =>
      match digit_value radix c with
      | Some d => digits_value_acc radix r (acc * radix + d)
      | None => None
      end
  end.

Definition digits_value (radix : Z) (s : string) : option Z :=
  digits_value_acc radix s 0.

(** One or more digits and nothing else. *)
Definition digits_literal (radix : Z) (s : string) : option Z :=
  if is_empty s then None else digits_value radix s.

(** The longest prefix of decimal digits, and what follows it. *)
Fixpoint span_digits (s : string) : string * string :=
  match s with
  | EmptyString => (EmptyString, EmptyString)
  | String c r =>
      if is_digit 10 c then
        let '(d, rest) := span_digits r in (String c d, rest)
      else (EmptyString, s)
  end.

Fixpoint all_chars (f : ascii -> bool) (s : string) : bool :=
  match s with
  | EmptyString => true
  | String c r => andb (f c) (all_chars f r)
  end.

(** [0x], [0o] and [0b] literals (either case of the letter): the radix and
    the digits. *)
Definition non_decimal_prefix (s : string) : option (Z * string) :=
  match s with
  | String "0" (String c r) =>
      if orb (Ascii.eqb c "x") (Ascii.eqb c "X") then Some (16, r)
      else if orb (Ascii.eqb c "o") (Ascii.eqb c "O") then Some (8, r)
      else if orb (Ascii.eqb c "b") (Ascii.eqb c "B") then Some (2, r)
      else None
  | _ => None
  end.

(** ** BigInt *)

(** [BigInt.prototype.toString()], radix 10. *)
Fixpoint pos_digits (fuel : nat) (n : Z) (acc : string) : string :=
  match fuel with
  | O => acc
  | S f =>
      let acc' := String (ascii_of_nat (Z.to_nat (48 + n mod 10))) acc in
      if n <? 10 then acc' else pos_digits f (n / 10) acc'
  end.

Definition nat_toString (n : Z) : string :=
  pos_digits (S (Z.to_nat (Z.log2 n))) n EmptyString.

Definition BigInt_toString (n : Z) : string :=
  if n <? 0 then String "-" (nat_toString (- n)) else nat_toString n.

(** [StringToBigInt]: optional white space around either a signed decimal
    integer or an unsigned [0x]/[0o]/[0b] literal; the empty string is [0n];
    [None] is the syntax error. *)
Definition StringToBigInt (s : string) : option Z :=
  let t := trim s in
  if is_empty t then Some 0 else
  match non_decimal_prefix t with
  | Some (radix, ds) => digits_literal radix ds
  | None =>
      match t with
      | String "+" r => digits_literal 10 r
      | String "-" r => option_map Z.opp (digits_literal 10 r)
      | _ => digits_literal 10 t
      end
  end.

(** [BigInt(s)] for a string argument: throws a [SyntaxError] when [s] is not
    an integer literal. *)
Definition BigInt (s : string) : Outcome Z :=
  match StringToBigInt s with
  | Some n => Resolved n
  | None => Rejected (new_SyntaxError ("Cannot convert " ++ s ++ " to a BigInt"))
  end.

(** ** Number *)

(** The binary64 format. *)
Definition prec : Z := 53.
Definition emax : Z := 1024.

Definition JsNumber : Type := spec_float.
Definition NaN : JsNumber := S754_nan.

(** The mathematical value of a numeric literal: [(-1)^neg * digits * 10^exp10],
    or an infinity. *)
Inductive MathValue : Type :=
| MVInfinity (neg : bool)
| MVDecimal (neg : bool) (digits : Z) (exp10 : Z).

(** The number value for a mathematical value: the binary64 value nearest to
    it, ties to even, whatever the number of digits. An integer is rounded
    directly; a proper fraction is the correctly rounded quotient of two
    integers. *)
Definition number_of_MV (v : MathValue) : JsNumber :=
  match v with
  | MVInfinity neg => S754_infinity neg
  | MVDecimal neg m e =>
      match m with
      | Zpos p =>
          if 0 <=? e then binary_normalize prec emax
                            (if neg then - (m * 10 ^ e) else m * 10 ^ e) 0 false
          else SFdiv prec emax (S754_finite neg p 0)
                               (S754_finite false (Z.to_pos (10 ^ (- e))) 0)
      | _ => S754_zero neg
      end
  end.


(** The exact rational denoted by a number, when it is finite. *)
Definition number_to_Q (x : JsNumber) : option Q :=
  match x with
  | S754_zero _ => Some (inject_Z 0)
  | S754_finite s m e =>
      let a := if s then Zneg m else Zpos m in
      Some (if 0 <=? e then inject_Z (a * 2 ^ e)
            else Qmake a (Z.to_pos (2 ^ (- e))))
  | _ => None
  end.

(** [ExponentPart_opt] followed by the end of the literal: [digits] are the
    significant digits read so far and [e0] the exponent the position of the
    decimal point gives them. *)
Definition exponent_part (rest : string) (neg : bool) (digits e0 : Z)
  : option MathValue :=
  match rest with
  | EmptyString => Some (MVDecimal neg digits e0)
  | String c r =>
      if orb (Ascii.eqb c "e") (Ascii.eqb c "E") then
        match r with
        | String "+" r' =>
            option_map (fun x => MVDecimal neg digits (e0 + x)) (digits_literal 10 r')
        | String "-" r' =>
            option_map (fun x => MVDecimal neg digits (e0 - x)) (digits_literal 10 r')
        | _ =>
            option_map (fun x => MVDecimal neg digits (e0 + x)) (digits_literal 10 r)
        end
      else None
  end.

(** [StrUnsignedDecimalLiteral]. *)
Definition unsigned_decimal_literal (neg : bool) (s : string) : option MathValue :=
  if String.eqb s "Infinity" then Some (MVInfinity neg) else
  let '(ip, r1) := span_digits s in
  match r1 with
  | String "." r2 =>
      let '(fp, r3) := span_digits r2 in
      if andb (is_empty ip) (is_empty fp) then None
      else
        match digits_value 10 (ip ++ fp) with
        | Some m => exponent_part r3 neg m (- Z.of_nat (String.length fp))
        | None => None
        end
  | _ =>
      if is_empty ip then None
      else
        match digits_value 10 ip with
        | Some m => exponent_part r1 neg m 0
        | None => None
        end
  end.

(** [StringNumericLiteral] and its mathematical value; [None] when [s] is
    not a numeric literal. White space alone, or nothing, denotes [+0]. *)
Definition StringNumericLiteral_MV (s : string) : option MathValue :=
  let t := trim s in
  if is_empty t then Some (MVDecimal false 0 0) else
  match non_decimal_prefix t with
  | Some (radix, ds) =>
      option_map (fun m => MVDecimal false m 0) (digits_literal radix ds)
  | None =>
      match t with
      | String "+" r => unsigned_decimal_literal false r
      | String "-" r => unsigned_decimal_literal true r
      | _ => unsigned_decimal_literal false t
      end
  end.

(** [Number(s)] for a string argument ([StringToNumber]). *)
Definition Number (s : string) : JsNumber :=
  match StringNumericLiteral_MV s with
  | Some v => number_of_MV v
  | None => NaN
  end.

(** A numeric literal of the program text, such as [1000]. *)
Definition number_literal (n : Z) : JsNumber :=
  binary_normalize prec emax n 0 false.

(** The [*] operator on numbers. *)
Definition number_mul (x y : JsNumber) : JsNumber := SFmul prec emax x y.

(** The number whose value is the whole number [m], for [m] below [2^53]:
    the mantissa is [m] shifted to [prec] digits. *)
Definition whole_number (m : positive) : JsNumber :=
  let d := Z.pos (digits2_pos m) in
  S754_finite false (Z.to_pos (Z.pos m * 2 ^ (prec - d))) (d - prec).

(** The exponent of the format at magnitude [e]. *)
Definition fexp64 (e : Z) : Z := Z.max (e - 53) (-1074).

(** The [===] operator on numbers: [NaN] equals nothing, the two zeros are
    equal, and otherwise two numbers are equal when they are the same value
    (compared on the representation [Number] and the literals produce, one
    mantissa and exponent per value). *)
Definition number_equal (x y : JsNumber) : bool := SFeqb x y.

(** ** Date *)

(** A [Date] object holds a time value, a whole number of milliseconds since
    the epoch, or is invalid (time value [NaN]). *)
Inductive JsDate : Type :=
| ValidDate (ms : Z)
| InvalidDate.

(** [ToIntegerOrInfinity] on a finite number: truncation towards zero. *)
Definition truncate (x : JsNumber) : option Z :=
  match x with
  | S754_zero _ => Some 0
  | S754_finite s m e =>
      let a := if 0 <=? e then Zpos m * 2 ^ e else Zpos m / 2 ^ (- e) in
      Some (if s then - a else a)
  | _ => None
  end.

(** [TimeClip]: a time value beyond 8.64e15 ms from the epoch is invalid.
    A magnitude above 8.64e15 is a whole number, so the test can be made
    after truncation. *)
Definition TimeClip (x : JsNumber) : JsDate :=
  match truncate x with
  | Some t => if Z.abs t <=? 8640000000000000 then ValidDate t else InvalidDate
  | None => InvalidDate
  end.

(** [new Date(value)] with a single numeric argument. *)
Definition new_Date (value : JsNumber) : JsDate := TimeClip value.

(** ** JSON.stringify *)

Definition hex_digit (n : nat) : ascii :=
  ascii_of_nat (if Nat.ltb n 10 then 48 + n else 87 + n).

Definition double_quote : ascii := ascii_of_nat 34.
Definition backslash : ascii := ascii_of_nat 92.

(** [QuoteJSONString], character by character. *)
Definition json_escape (c : ascii) : string :=
  let n := nat_of_ascii c in
  if Nat.eqb n 8 then String backslash "b"
  else if Nat.eqb n 9 then String backslash "t"
  else if Nat.eqb n 10 then String backslash "n"
  else if Nat.eqb n 12 then String backslash "f"
  else if Nat.eqb n 13 then String backslash "r"
  else if Nat.eqb n 34 then String backslash (String double_quote EmptyString)
  else if Nat.eqb n 92 then String backslash (String backslash EmptyString)
  else if Nat.ltb n 32 then
    String backslash
      ("u00" ++ String (hex_digit (Nat.div n 16))
                  (String (hex_digit (Nat.modulo n 16)) EmptyString))
  else String c EmptyString.

Fixpoint json_escape_all (s : string) : string :=
  match s with
  | EmptyString => EmptyString
  | String c r => json_escape c ++ json_escape_all r
  end.

Definition json_quote (s : string) : string :=
  String double_quote (json_escape_all s ++ String double_quote EmptyString).

(** [JSON.stringify(obj)] for an object whose properties are all strings. *)
Fixpoint json_members (fields : list (string * string)) : string :=
  match fields with
  | [] => EmptyString
  | [(k, v)] => json_quote k ++ ":" ++ json_quote v
  | (k, v) :: rest => json_quote k ++ ":" ++ json_quote v ++ "," ++ json_members rest
  end.

Definition JSON_stringify (fields : list (string * string)) : string :=
  "{" ++ json_members fields ++ "}".

(** ** Asynchronous computations

    An [async] function runs over the trace of the events performed so far,
    extends it, and completes. Calls to the outside world are answered by
    oracles that may depend on the whole trace, so that two calls with equal
    arguments need not complete alike. *)

Section Async.
Context {Ev : Type}.

Definition Async (A : Type) : Type := list Ev -> list Ev * Outcome A.

Definition ret {A} (a : A) : Async A := fun h => (h, Resolved a).

(** [throw e], or a rejected promise. *)
Definition throw {A} (e : JsError) : Async A := fun h => (h, Rejected e).

(** Sequencing: [const x = await m; k x]. *)
Definition bind {A B} (m : Async A) (k : A -> Async B) : Async B :=
  fun h =>
    match m h with
    | (h', Resolved a) => k a h'
    | (h', Rejected e) => (h', Rejected e)
    end.

(** [try { body } catch (error) { handler error }]. *)
Definition try_catch {A} (body : Async A) (handler : JsError -> Async A)
  : Async A :=
  fun h =>
    match body h with
    | (h', Resolved a) => (h', Resolved a)
    | (h', Rejected e) => handler e h'
    end.

(** Perform an event. *)
Definition emit (ev : Ev) : Async unit := fun h => ((h ++ [ev])%list, Resolved tt).

(** A call to the outside world: the event is recorded and [oracle], given
    the trace before the call, tells how the call completes. *)
Definition call {A} (ev : Ev) (oracle : list Ev -> Outcome A) : Async A :=
  fun h => ((h ++ [ev])%list, oracle h).

(** The completion of a synchronous expression that may throw. *)
Definition lift {A} (o : Outcome A) : Async A := fun h => (h, o).

(** Calling an [async] function without awaiting it: the call is started,
    its events happen, and its promise is kept for later. *)
Definition start {A} (m : Async A) : Async (Outcome A) :=
  fun h => let '(h', o) := m h in (h', Resolved o).

(** The errors of the rejected promises of a list, in the order of the list. *)
Fixpoint rejections {A} (ps : list (Outcome A)) : list JsError :=
  match ps with
  | [] => []
  | Resolved _ :: r => rejections r
  | Rejected e :: r => e :: rejections r
  end.

(** The values of the promises of a list when all are resolved. *)
Fixpoint resolutions {A} (ps : list (Outcome A)) : option (list A) :=
  match ps with
  | [] => Some []
  | Resolved a :: r => option_map (cons a) (resolutions r)
  | Rejected _ :: r => None
  end.

(** [await Promise.all(ps)]: the values in the order of [ps] when all
    promises resolve; otherwise the rejection of the promise that rejected
    first in time, which [race] designates by its position among the
    rejected ones. *)
Definition Promise_all {A} (race : list Ev -> list JsError -> nat)
    (ps : list (Outcome A)) : Async (list A) :=
  fun h =>
    match resolutions ps with
    | Some vs => (h, Resolved vs)
    | None =>
        let errs := rejections ps in
        (h, Rejected (nth (race h errs) errs
                          (hd (new_Error EmptyString) errs)))
    end.

(** [items.map(f)] where [f] starts an asynchronous call on each item. *)
Fixpoint start_each {A B} (f : A -> Async B) (items : list A)
  : Async (list (Outcome B)) :=
  match items with
  | [] => ret []
  | x :: r =>
      bind (start (f x)) (fun p =>
      bind (start_each f r) (fun ps => ret (p :: ps)))
  end.
End Async.
Arguments Async : clear implicits.

Declare Scope async_scope.
Delimit Scope async_scope with async.
Notation "x <- m ;; k" := (bind m (fun x => k))
  (at level 61, m at next level, right associativity) : async_scope.
Notation "' p <- m ;; k" := (bind m (fun p => k))
  (at level 61, p pattern, m at next level, right associativity) : async_scope.
Notation "m ;;; k" := (bind m (fun _ => k))
  (at level 61, right associativity) : async_scope.

End Js.

(* ================================================================== *)
(** * viem *)
(* ================================================================== *)

Module Viem.
Import Js.

(** An [Address] is a string at run time; the casts [as Address] check
    nothing. *)
Definition Address : Type := string.

Fixpoint repeat_char (c : ascii) (n : nat) : string :=
  match n with O => EmptyString | S k => String c (repeat_char c k) end.

(** [s.padStart(n, '0')]. *)
Definition padStart (s : string) (n : nat) : string :=
  repeat_char "0" (n - String.length s) ++ s.

(** [s.slice(0, n)] and [s.slice(n)] for [0 <= n]. *)
Definition slice_to (s : string) (n : nat) : string := String.substring 0 n s.
Definition slice_from (s : string) (n : nat) : string :=
  String.substring n (String.length s - n) s.

(** [s.replace(/(0+)$/, '')]: the trailing zeros are removed. *)
Fixpoint strip_trailing_zeros (s : string) : string :=
  match s with
  | EmptyString => EmptyString
  | String c r =>
      let r' := strip_trailing_zeros r in
      if andb (Ascii.eqb c "0") (is_empty r') then EmptyString else String c r'
  end.

(** [formatUnits(value, decimals)]: the decimal notation of
    [value / 10^decimals], an exact operation on the digits of [value]. *)
Definition formatUnits (value : Z) (decimals : nat) : string :=
  let display := BigInt_toString value in
  let negative := String.prefix "-" display in
  let display := if negative then slice_from display 1 else display in
  let display := padStart display decimals in
  let integer := slice_to display (String.length display - decimals) in
  let fraction := slice_from display (String.length display - decimals) in
  let fraction := strip_trailing_zeros fraction in
  (if negative then "-" else EmptyString)
    ++ (if is_empty integer then "0" else integer)
    ++ (if is_empty fraction then EmptyString else "." ++ fraction).

End Viem.


(* ================================================================== *)
(** * website/src/services/services.ts *)
(* ================================================================== *)

Module Services.
Import Js Viem.
Local Open Scope async_scope.

(** ** Raw data types *)

Module RawBet.
Record t : Type := mk {
  id : string;
  contractAddress : string;
  creator : string;
  participant : string;
  amount : string;
  token : string;
  message : string;
  judge : string;
  createdTime : string;
  validUntil : string }.
End RawBet.
Definition RawBet : Type := RawBet.t.

(** The source types [hasNextPage] as the literal [false]; nothing checks it
    at run time, so it is a boolean here. *)
Record PageInfo : Type := {
  hasPreviousPage : bool;
  startCursor : string;
  hasNextPage : bool;
  endCursor : string }.

Module RawBets.
Record t : Type := mk {
  items : list RawBet;
  pageInfo : option PageInfo }.
End RawBets.
Definition RawBets : Type := RawBets.t.

(** [Partial<{ afterCursor: string; beforeCursor: string }>]. *)
Record Page : Type := {
  afterCursor : option string;
  beforeCursor : option string }.

(** ** Formatted data types *)

Module FormattedBet.
Record t : Type := mk {
  betId : JsNumber;
  contractAddress : Address;
  creator : Address;
  creatorAlias : string;
  participant : Address;
  participantAlias : string;
  amount : JsNumber;
  bigintAmount : Z;
  token : Address;
  message : string;
  judge : Address;
  judgeAlias : string;
  validUntil : JsDate;
  createdTime : JsDate;
  status : option string;
  winner : option Address;
  judgementReason : option string }.
End FormattedBet.
Definition FormattedBet : Type := FormattedBet.t.

Module FormattedBets.
Record t : Type := mk {
  items : list FormattedBet;
  pageInfo : option PageInfo }.
End FormattedBets.
Definition FormattedBets : Type := FormattedBets.t.

(** ** The outside world *)

(** The parsed body of a response of the indexing API, as far as the
    fetchers look into it: [result.data.bet] and [result.data.bets]. The
    assertion [as Promise<T>] checks nothing, so each property on the way may
    be missing or [null] ([None]); whatever is present has its declared
    type. A body that is not an object has no [data]. *)
Record GqlData : Type := {
  bet : option RawBet;
  bets : option RawBets }.
Record GqlBody : Type := {
  data : option GqlData }.

(** A [Response]: its HTTP status code, and how [res.json()] completes (it
    rejects when the body is not JSON). *)
Record Response : Type := {
  status : Z;
  json : Outcome GqlBody }.

Record RequestInit : Type := {
  method : string;
  headers : list (string * string);
  body : string }.

(** The contract ABI and the wagmi configuration are constants imported from
    other modules; they are passed on by name. *)
Inductive AbiName : Type := BetAbi.
Inductive WagmiConfig : Type := config.

Record ContractCall : Type := {
  address : Address;
  abi : AbiName;
  functionName : string }.

(** One entry of the array [readContracts] resolves with. [formatBet] reads
    the property [result] of each entry, and [FormattedBet] declares the
    fields it fills with them as possibly [undefined]: an entry is the
    decoded return value of a read, or the error of a read that failed, which
    has no [result]. *)
Inductive ContractRead : Type :=
| ReadSuccess (value : string)
| ReadFailure (error : JsError).

(** The [result] property of an entry: [undefined] ([None]) for a failed
    read. *)
Definition result (r : ContractRead) : option string :=
  match r with
  | ReadSuccess v => Some v
  | ReadFailure _ => None
  end.

Inductive Event : Type :=
| console_log (text : string)
| console_error (text : string)
| fetch_call (url : string) (init : RequestInit)
| getPreferredAlias_call (a : Address)
| readContracts_call (c : WagmiConfig) (contracts : list ContractCall).

(** What the module imports and calls: the API URL, the query generators of
    [./queries] (synchronous; they return a query or throw), [fetch],
    [getPreferredAlias], wagmi's [readContracts], and the order in which
    concurrent promises reject. *)
Record World : Type := {
  BET_API_URL : string;
  generateBetQuery : JsNumber -> Outcome string;
  generateBetsQuery : list JsNumber -> Outcome string;
  generateRecentBetsQuery : JsNumber -> option Page -> Outcome string;
  generateUserBetsQuery : Address -> JsNumber -> option Page -> Outcome string;
  fetch : list Event -> string -> RequestInit -> Outcome Response;
  getPreferredAlias : list Event -> Address -> Outcome string;
  readContracts : list Event -> WagmiConfig -> list ContractCall ->
                  Outcome (ContractRead * ContractRead * ContractRead);
  race : list Event -> list JsError -> nat }.

(** The computation of an [async] function returning [Promise<A>]. *)
Definition Promise (A : Type) : Type := Async Event A.

Section WithWorld.
Variable w : World.

(** ** General getter function *)

Definition post_query (query : string) : RequestInit :=
  {| method := "POST";
     headers := [("Content-Type", "application/json")];
     body := JSON_stringify [("query", query)] |}.

Definition queryGqlApi (url query : string) : Promise GqlBody :=
  emit (console_log "Running queryGqlApi...") ;;;
  res <- call (fetch_call url (post_query query))
              (fun h => fetch w h url (post_query query)) ;;
  lift (json res).

(** ** Get raw data *)

(** Reading property [prop] of [o]: a [TypeError] when [o] is [undefined]
    or [null]. *)
Definition property_of {A} (o : option A) (prop : string) : Outcome A :=
  match o with
  | Some a => Resolved a
  | None =>
      Rejected (new_TypeError
        ("Cannot read properties of undefined (reading '" ++ prop ++ "')"))
  end.

(** [catch (error) { console.error(errorMsg + ": " + error);
                     throw new Error(errorMsg); }] *)
Definition rethrow {A} (errorMsg : string) (error : JsError) : Promise A :=
  emit (console_error (errorMsg ++ ": " ++ error_toString error)) ;;;
  throw (new_Error errorMsg).

Definition getRawBetFromId (betId : JsNumber) : Promise (option RawBet) :=
  emit (console_log "Running getRawBetFromId...") ;;;
  try_catch
    (query <- lift (generateBetQuery w betId) ;;
     result <- queryGqlApi (BET_API_URL w) query ;;
     d <- lift (property_of (data result) "bet") ;;
     ret (bet d))
    (rethrow "Failed to get raw bet details from bet id").

Definition getRawBetsFromIds (betIds : list JsNumber) : Promise (option RawBets) :=
  emit (console_log "Running getRawBetsFromIds...") ;;;
  try_catch
    (query <- lift (generateBetsQuery w betIds) ;;
     result <- queryGqlApi (BET_API_URL w) query ;;
     d <- lift (property_of (data result) "bets") ;;
     ret (bets d))
    (rethrow "Failed to get raw bets from bet ids").

Definition getRecentRawBets (numBets : JsNumber) (page : option Page)
  : Promise (option RawBets) :=
  emit (console_log "Running getRecentRawBets...") ;;;
  try_catch
    (query <- lift (generateRecentBetsQuery w numBets page) ;;
     result <- queryGqlApi (BET_API_URL w) query ;;
     d <- lift (property_of (data result) "bets") ;;
     ret (bets d))
    (rethrow "Failed to get recent raw bets").

Definition getUserRawBets (user : Address) (numBets : JsNumber)
    (page : option Page) : Promise (option RawBets) :=
  emit (console_log "Running getRecentRawBets...") ;;;
  try_catch
    (query <- lift (generateUserBetsQuery w user numBets page) ;;
     result <- queryGqlApi (BET_API_URL w) query ;;
     d <- lift (property_of (data result) "bets") ;;
     ret (bets d))
    (rethrow "Failed to get raw bet details for a user").

(** ** Utility function for formatting a bet *)

Definition rejection {A} (p : Outcome A) : list JsError :=
  match p with
  | Resolved _ => []
  | Rejected e => [e]
  end.

(** [await Promise.all([p1, p2, p3, p4])] on a tuple of four promises. *)
Definition Promise_all4 {A B C D} (p1 : Outcome A) (p2 : Outcome B)
    (p3 : Outcome C) (p4 : Outcome D) : Promise (A * B * C * D) :=
  fun h =>
    match p1, p2, p3, p4 with
    | Resolved a, Resolved b, Resolved c, Resolved d => (h, Resolved (a, b, c, d))
    | _, _, _, _ =>
        let errs := (rejection p1 ++ rejection p2 ++ rejection p3 ++ rejection p4)%list in
        (h, Rejected (nth (race w h errs) errs (hd (new_Error EmptyString) errs)))
    end.

(** The three reads of the multi-call, all on the contract of the bet. *)
Definition status_reads (contractAddress : Address) : list ContractCall :=
  [ {| address := contractAddress; abi := BetAbi; functionName := "getStatus" |};
    {| address := contractAddress; abi := BetAbi; functionName := "winner" |};
    {| address := contractAddress; abi := BetAbi; functionName := "judgementReason" |} ].

Definition formatBet (rawBet : RawBet) : Promise FormattedBet :=
  emit (console_log "Running formatBet...") ;;;
  try_catch
    ((* re-cast variables as the correct types *)
     let contractAddress : Address := RawBet.contractAddress rawBet in
     let creator : Address := RawBet.creator rawBet in
     let participant : Address := RawBet.participant rawBet in
     let judge : Address := RawBet.judge rawBet in
     (* get aliases and bet status *)
     p1 <- start (call (getPreferredAlias_call creator)
                       (fun h => getPreferredAlias w h creator)) ;;
     p2 <- start (call (getPreferredAlias_call participant)
                       (fun h => getPreferredAlias w h participant)) ;;
     p3 <- start (call (getPreferredAlias_call judge)
                       (fun h => getPreferredAlias w h judge)) ;;
     p4 <- start (call (readContracts_call config (status_reads contractAddress))
                       (fun h => readContracts w h config (status_reads contractAddress))) ;;
     '(creatorAlias, participantAlias, judgeAlias, (status, winner, judgementReason))
        <- Promise_all4 p1 p2 p3 p4 ;;
     (* return *)
     amount <- lift (BigInt (RawBet.amount rawBet)) ;;
     bigintAmount <- lift (BigInt (RawBet.amount rawBet)) ;;
     ret {| FormattedBet.betId := Number (RawBet.id rawBet);
            FormattedBet.contractAddress := contractAddress;
            FormattedBet.creator := creator;
            FormattedBet.creatorAlias := creatorAlias;
            FormattedBet.participant := participant;
            FormattedBet.participantAlias := participantAlias;
            FormattedBet.amount := Number (formatUnits amount 6);
            FormattedBet.bigintAmount := bigintAmount;
            FormattedBet.token := RawBet.token rawBet;
            FormattedBet.message := RawBet.message rawBet;
            FormattedBet.judge := judge;
            FormattedBet.judgeAlias := judgeAlias;
            FormattedBet.validUntil :=
              new_Date (number_mul (Number (RawBet.validUntil rawBet)) (number_literal 1000));
            FormattedBet.createdTime :=
              new_Date (number_mul (Number (RawBet.createdTime rawBet)) (number_literal 1000));
            FormattedBet.status := result status;
            FormattedBet.winner := result winner;
            FormattedBet.judgementReason := result judgementReason |})
    (rethrow "Failed to format bets from raw bets").

(** ** Get formatted data *)

(** [await Promise.all(rawBets.items.map((bet) => formatBet(bet)))], as the
    three functions below have it; reading [items] of a missing [rawBets]
    throws. *)
Definition formatAll (rawBets : option RawBets) : Promise (list FormattedBet) :=
  r <- lift (property_of rawBets "items") ;;
  promises <- start_each formatBet (RawBets.items r) ;;
  Promise_all (race w) promises.

Definition getFormattedBetsFromIds (betIds : list JsNumber) : Promise FormattedBets :=
  emit (console_log "Running getFormattedBetsFromIds...") ;;;
  try_catch
    (rawBets <- getRawBetsFromIds betIds ;;
     formattedBets <- formatAll rawBets ;;
     ret {| FormattedBets.items := formattedBets;
            FormattedBets.pageInfo := None |})
    (rethrow "Failed to get formatted bets from bet ids").

(** [rawBets.pageInfo], read after [rawBets.items] has been read without
    error. *)
Definition pageInfo_of (rawBets : option RawBets) : option PageInfo :=
  match rawBets with
  | Some r => RawBets.pageInfo r
  | None => None
  end.

Definition getRecentFormattedBets (numBets : JsNumber) (page : option Page)
  : Promise FormattedBets :=
  emit (console_log "Running getRecentFormattedBets...") ;;;
  try_catch
    (rawBets <- getRecentRawBets numBets page ;;
     formattedBets <- formatAll rawBets ;;
     ret {| FormattedBets.items := formattedBets;
            FormattedBets.pageInfo := pageInfo_of rawBets |})
    (rethrow "Failed to get recent formatted bets").

Definition getUserFormattedBets (user : Address) (numBets : JsNumber)
    (page : option Page) : Promise FormattedBets :=
  emit (console_log "Running getUserFormattedBets...") ;;;
  try_catch
    (rawBets <- getUserRawBets user numBets page ;;
     formattedBets <- formatAll rawBets ;;
     ret {| FormattedBets.items := formattedBets;
            FormattedBets.pageInfo := pageInfo_of rawBets |})
    (rethrow "Failed to get formatted bet details for a user").

(** [formatBet(rawBet)] on what [getRawBetFromId] resolves with, which may
    be [undefined]: the first statement of the [try] block then throws a
    [TypeError], before any call is made. *)
Definition formatBet_at (rawBet : option RawBet) : Promise FormattedBet :=
  match rawBet with
  | Some r => formatBet r
  | None =>
      emit (console_log "Running formatBet...") ;;;
      try_catch
        (throw (new_TypeError
           "Cannot read properties of undefined (reading 'contractAddress')"))
        (rethrow "Failed to format bets from raw bets")
  end.

(** [return formatBet(rawBet)] is not awaited: the call is started inside the
    [try] block, and the promise it returns is the result of the function,
    settled outside of it. *)
Definition getFormattedBetFromId (betId : JsNumber) : Promise FormattedBet :=
  emit (console_log "Running getFormattedBetFromId...") ;;;
  promise <- try_catch
               (rawBet <- getRawBetFromId betId ;;
                start (formatBet_at rawBet))
               (rethrow "Failed to get formatted bet details from bet id") ;;
  lift promise.

End WithWorld.
End Services.

(* ================================================================== *)
(** * The bot's retrieve-transaction handler *)
(* ================================================================== *)

Module Bot.
Import Js Viem.
Local Open Scope async_scope.

(** The ABI of the bet contract, imported from [../contracts/betAbi]. *)
Inductive AbiName : Type := betAbi.

(** The argument of [c.contract]. *)
Record ContractTransactionParameters : Type := {
  abi : AbiName;
  to : Address;
  chainId : string;
  functionName : string }.

(** The path parameters of the route [/tx/retrieve/:contractAddress]. *)
Record PathParams : Type := {
  contractAddress : string }.

Inductive Event : Type :=
| contract_call (parameters : ContractTransactionParameters).

(** zod: a schema made by [z.custom(check, message)], and the value of
    [schema.safeParse(input)]. *)
Record ZodCustom : Type := {
  check : string -> bool;
  errorMessage : string }.

Inductive SafeParseReturn : Type :=
| ParseSuccess (data : string)
| ParseError (message : string).

Definition safeParse (schema : ZodCustom) (input : string) : SafeParseReturn :=
  if check schema input then ParseSuccess input
  else ParseError (errorMessage schema).

Definition success (r : SafeParseReturn) : bool :=
  match r with ParseSuccess _ => true | ParseError _ => false end.

Section RetrieveTxn.
(** viem's [isAddress], and the response type of frog. *)
Variable isAddress : string -> bool.
Variable TransactionResponse : Type.

(** frog's [TransactionContext]: [c.req.param()] and [c.contract]. *)
Record TransactionContext : Type := {
  req_param : PathParams;
  contract : ContractTransactionParameters -> TransactionResponse }.

Definition retrieveTxn (c : TransactionContext)
  : Async Event TransactionResponse :=
  let contractAddress := contractAddress (req_param c) in
  let AddressSchema := {| check := isAddress; errorMessage := "Invalid Address" |} in
  match safeParse AddressSchema contractAddress with
  | ParseError _ => throw (new_Error EmptyString)
  | ParseSuccess parsedAddress =>
      let parameters :=
        {| abi := betAbi;
           to := parsedAddress;
           chainId := "eip155:42161";
           functionName := "retrieveTokens" |} in
      emit (contract_call parameters) ;;;
      ret (contract c parameters)
  end.
End RetrieveTxn.
Arguments req_param {TransactionResponse} _.
Arguments contract {TransactionResponse} _ _.
Arguments retrieveTxn isAddress {TransactionResponse} c _.

End Bot.

(* ================================================================== *)
(** * website/src/components/bet-list-card.tsx *)
(* ================================================================== *)

(** The expressions of the lists of bets that compute: the paging of the
    infinite queries, the cell of the status, the mark of the current bet and
    the foot of the table. The hooks and the markup are not modelled. *)
Module BetListCard.
Import Js Viem Services.

(** [{ afterCursor: pageParam }], where [pageParam] defaults to the empty
    string. *)
Definition page_after (pageParam : option string) : option Page :=
  Some {| afterCursor := Some (match pageParam with
                               | Some c => c
                               | None => EmptyString
                               end);
          beforeCursor := None |}.

(** [queryFn] of [RecentBetList]. *)
Definition RecentBetList_queryFn (w : World) (pageParam : option string)
  : Promise FormattedBets :=
  getRecentFormattedBets w (number_literal 6) (page_after pageParam).

(** [queryFn] of [MyBetList], for the address of the account. *)
Definition MyBetList_queryFn (w : World) (address : Address)
    (pageParam : option string) : Promise FormattedBets :=
  getUserFormattedBets w address (number_literal 6) (page_after pageParam).

Definition initialPageParam : string := EmptyString.

(** [getNextPageParam]: [lastPage.pageInfo?.endCursor]. *)
Definition getNextPageParam (lastPage : FormattedBets) : option string :=
  match FormattedBets.pageInfo lastPage with
  | Some info => Some (endCursor info)
  | None => None
  end.

(** [currentView]: a bet, the form to create one, or nothing. *)
Inductive CurrentView : Type :=
| ViewBet (bet : FormattedBet)
| ViewCreate
| ViewNothing.

(** [data-current-bet]:
    [typeof currentView === "object" && bet.betId === currentView.betId]. *)
Definition isCurrentBet (currentView : CurrentView) (bet : FormattedBet) : bool :=
  match currentView with
  | ViewBet view => number_equal (FormattedBet.betId bet) (FormattedBet.betId view)
  | ViewCreate => false
  | ViewNothing => false
  end.

(** [bet.status === literal], for a status that may be [undefined]. *)
Definition status_is (status : option string) (literal : string) : bool :=
  match status with
  | Some s => String.eqb s literal
  | None => false
  end.

(** What the cell of the status shows. *)
Inductive StatusCell : Type :=
| Hourglass
| CheckMark
| Cross
| MoneyBag
| Ellipsis.

Definition statusCell (status : option string) : StatusCell :=
  if status_is status "pending" then Hourglass
  else if status_is status "accepted" then CheckMark
  else if orb (status_is status "declined") (status_is status "expired") then Cross
  else if status_is status "settled" then MoneyBag
  else Ellipsis.

(** The foot of the table: a spinner, or the button that fetches the next
    page, with its text and whether it is disabled. *)
Inductive Footer : Type :=
| Spinner
| LoadButton (label : string) (disabled : bool).

Definition footer (isFetching isFetchingNextPage hasNextPage : bool) : Footer :=
  if andb isFetching (negb isFetchingNextPage) then Spinner
  else LoadButton
         (if isFetchingNextPage then "Loading..."
          else if hasNextPage then "Load More"
          else "Nothing more to load")
         (orb (negb hasNextPage) isFetchingNextPage).

End BetListCard.

(* ================================================================== *)
(** * Sample worlds *)
(* ================================================================== *)

Module Samples.
Import Js Viem Services.

(** The bet of the scenario of the specification. *)
Definition bet5 : RawBet :=
  {| RawBet.id := "5";
     RawBet.contractAddress := "0xc0ffee0000000000000000000000000000000005";
     RawBet.creator := "0xaaaaaaaaaaaaaaaaaaaaaaaaaaaaaaaaaaaaaaaa";
     RawBet.participant := "0xbbbbbbbbbbbbbbbbbbbbbbbbbbbbbbbbbbbbbbbb";
     RawBet.amount := "1500000";
     RawBet.token := "0x833589fcd6edb6e08f4c7c32d4f71b54bda02913";
     RawBet.message := "rain tomorrow";
     RawBet.judge := "0xcccccccccccccccccccccccccccccccccccccccc";
     RawBet.createdTime := "1690000000";
     RawBet.validUntil := "1700000000" |}.

(** The same bet with a stake of one smallest unit. *)
Definition bet6 : RawBet :=
  {| RawBet.id := "6";
     RawBet.contractAddress := "0xc0ffee0000000000000000000000000000000006";
     RawBet.creator := RawBet.creator bet5;
     RawBet.participant := RawBet.participant bet5;
     RawBet.amount := "1";
     RawBet.token := RawBet.token bet5;
     RawBet.message := "snow tomorrow";
     RawBet.judge := RawBet.judge bet5;
     RawBet.createdTime := "1690000100";
     RawBet.validUntil := "1700000100" |}.

Definition page1 : PageInfo :=
  {| hasPreviousPage := false; startCursor := "c0";
     hasNextPage := true; endCursor := "c2" |}.

Definition cursor_text (page : option Page) : string :=
  match page with
  | Some {| afterCursor := Some c |} => c
  | _ => "-"
  end.

(** A world whose API completes every request with [answer], whose names
    resolve to [alias:<address>], and whose contract reads complete with
    [reads]. *)
Definition world_api (answer : Outcome Response)
    (reads : Outcome (ContractRead * ContractRead * ContractRead)) : World :=
  {| BET_API_URL := "https://api.example/graphql";
     generateBetQuery := fun _ => Resolved "bet";
     generateBetsQuery := fun _ => Resolved "bets";
     generateRecentBetsQuery := fun _ page => Resolved ("recent after " ++ cursor_text page);
     generateUserBetsQuery := fun user _ page =>
       Resolved ("user " ++ user ++ " after " ++ cursor_text page);
     fetch := fun _ _ _ => answer;
     getPreferredAlias := fun _ a => Resolved ("alias:" ++ a);
     readContracts := fun _ _ _ => reads;
     race := fun _ _ => O |}.

(** The body [{data: {bet: bet5, bets: {items: [bet5, bet6], pageInfo}}}]. *)
Definition page_body : GqlBody :=
  {| data := Some
       {| bet := Some bet5;
          bets := Some {| RawBets.items := [bet5; bet6];
                          RawBets.pageInfo := Some page1 |} |} |}.

(** An API that answers every query with [page_body] and status
    [http_status]. *)
Definition world (http_status : Z)
    (reads : Outcome (ContractRead * ContractRead * ContractRead)) : World :=
  world_api (Resolved {| status := http_status; json := Resolved page_body |}) reads.

(** A gateway error: status 502 and a body that is not JSON. *)
Definition bad_gateway : Response :=
  {| status := 502;
     json := Rejected (new_SyntaxError "Unexpected token < in JSON at position 0") |}.

(** A GraphQL error: status 200 and the body [{errors: [...]}], without
    [data]. *)
Definition graphql_error : Response :=
  {| status := 200; json := Resolved {| data := None |} |}.

Definition pending_reads : Outcome (ContractRead * ContractRead * ContractRead) :=
  Resolved (ReadSuccess "pending",
            ReadFailure (new_Error "execution reverted"),
            ReadFailure (new_Error "execution reverted")).

Definition settled_reads : Outcome (ContractRead * ContractRead * ContractRead) :=
  Resolved (ReadSuccess "settled",
            ReadSuccess "0xaaaaaaaaaaaaaaaaaaaaaaaaaaaaaaaaaaaaaaaa",
            ReadSuccess "it rained").

(** The world [w] with the name service out of order. *)
Definition without_names (w : World) : World :=
  {| BET_API_URL := BET_API_URL w;
     generateBetQuery := generateBetQuery w;
     generateBetsQuery := generateBetsQuery w;
     generateRecentBetsQuery := generateRecentBetsQuery w;
     generateUserBetsQuery := generateUserBetsQuery w;
     fetch := fetch w;
     getPreferredAlias := fun _ _ => Rejected (new_Error "name service unavailable");
     readContracts := readContracts w;
     race := race w |}.

(** [bet5], formatted while its contract reports a pending bet. *)
Definition bet5_pending : FormattedBet :=
  {| FormattedBet.betId := number_literal 5;
     FormattedBet.contractAddress := RawBet.contractAddress bet5;
     FormattedBet.creator := RawBet.creator bet5;
     FormattedBet.creatorAlias := "alias:" ++ RawBet.creator bet5;
     FormattedBet.participant := RawBet.participant bet5;
     FormattedBet.participantAlias := "alias:" ++ RawBet.participant bet5;
     FormattedBet.amount := Number "1.5";
     FormattedBet.bigintAmount := 1500000;
     FormattedBet.token := RawBet.token bet5;
     FormattedBet.message := RawBet.message bet5;
     FormattedBet.judge := RawBet.judge bet5;
     FormattedBet.judgeAlias := "alias:" ++ RawBet.judge bet5;
     FormattedBet.validUntil := ValidDate 1700000000000;
     FormattedBet.createdTime := ValidDate 1690000000000;
     FormattedBet.status := Some "pending";
     FormattedBet.winner := None;
     FormattedBet.judgementReason := None |}.

(** An address check for the examples: [0x] and forty lower-case hexadecimal
    digits, which viem accepts whatever the check sum. *)
Definition lower_hex (c : ascii) : bool :=
  let n := nat_of_ascii c in
  orb (andb (Nat.leb 48 n) (Nat.leb n 57)) (andb (Nat.leb 97 n) (Nat.leb n 102)).

Definition isAddress_lower (s : string) : bool :=
  match s with
  | String "0" (String "x" r) => andb (Nat.eqb (String.length r) 40) (all_chars lower_hex r)
  | _ => false
  end.

Definition context (a : string)
  : Bot.TransactionContext Bot.ContractTransactionParameters :=
  {| Bot.req_param := {| Bot.contractAddress := a |};
     Bot.contract := fun p => p |}.

(** A body with [data] and nothing in it. *)
Definition empty_data : Response :=
  {| status := 200;
     json := Resolved {| data := Some {| bet := None; bets := None |} |} |}.

(** [bet5] with another id, amount or expiry. *)
Definition with_id (id : string) (r : RawBet) : RawBet :=
  {| RawBet.id := id;
     RawBet.contractAddress := RawBet.contractAddress r;
     RawBet.creator := RawBet.creator r;
     RawBet.participant := RawBet.participant r;
     RawBet.amount := RawBet.amount r;
     RawBet.token := RawBet.token r;
     RawBet.message := RawBet.message r;
     RawBet.judge := RawBet.judge r;
     RawBet.createdTime := RawBet.createdTime r;
     RawBet.validUntil := RawBet.validUntil r |}.

Definition with_amount (amount : string) (r : RawBet) : RawBet :=
  {| RawBet.id := RawBet.id r;
     RawBet.contractAddress := RawBet.contractAddress r;
     RawBet.creator := RawBet.creator r;
     RawBet.participant := RawBet.participant r;
     RawBet.amount := amount;
     RawBet.token := RawBet.token r;
     RawBet.message := RawBet.message r;
     RawBet.judge := RawBet.judge r;
     RawBet.createdTime := RawBet.createdTime r;
     RawBet.validUntil := RawBet.validUntil r |}.

Definition with_validUntil (validUntil : string) (r : RawBet) : RawBet :=
  {| RawBet.id := RawBet.id r;
     RawBet.contractAddress := RawBet.contractAddress r;
     RawBet.creator := RawBet.creator r;
     RawBet.participant := RawBet.participant r;
     RawBet.amount := RawBet.amount r;
     RawBet.token := RawBet.token r;
     RawBet.message := RawBet.message r;
     RawBet.judge := RawBet.judge r;
     RawBet.createdTime := RawBet.createdTime r;
     RawBet.validUntil := validUntil |}.

(** A page whose second bet has an amount with a decimal point, which
    [BigInt] refuses. *)
Definition mixed_page : Response :=
  {| status := 200;
     json := Resolved {| data := Some
       {| bet := Some (with_amount "1.5" bet6);
          bets := Some {| RawBets.items := [bet5; with_amount "1.5" bet6];
                          RawBets.pageInfo := Some page1 |} |} |} |}.

End Samples.

(* ================================================================== *)
(** * Vocabulary of the statements *)
(* ================================================================== *)

Module Spec.
Import Js Viem Services.

(** The world [w] in which every HTTP status code [s] is replaced by [f s]. *)
Definition restatus (f : Z -> Z) (w : World) : World :=
  {| BET_API_URL := BET_API_URL w;
     generateBetQuery := generateBetQuery w;
     generateBetsQuery := generateBetsQuery w;
     generateRecentBetsQuery := generateRecentBetsQuery w;
     generateUserBetsQuery := generateUserBetsQuery w;
     fetch := fun h url init =>
       match fetch w h url init with
       | Resolved res => Resolved {| status := f (status res); json := json res |}
       | Rejected e => Rejected e
       end;
     getPreferredAlias := getPreferredAlias w;
     readContracts := readContracts w;
     race := race w |}.

(** The four concurrent calls of [formatBet rawBet] started at trace [h]:
    the trace at which each is issued, and how each completes. *)
Definition formatBet_started (h : list Event) : list Event :=
  (h ++ [console_log "Running formatBet..."])%list.

Definition creator_lookup (w : World) (rawBet : RawBet) (h : list Event)
  : Outcome string :=
  getPreferredAlias w (formatBet_started h) (RawBet.creator rawBet).

Definition participant_lookup (w : World) (rawBet : RawBet) (h : list Event)
  : Outcome string :=
  getPreferredAlias w
    (formatBet_started h ++ [getPreferredAlias_call (RawBet.creator rawBet)])%list
    (RawBet.participant rawBet).

Definition judge_lookup (w : World) (rawBet : RawBet) (h : list Event)
  : Outcome string :=
  getPreferredAlias w
    ((formatBet_started h ++ [getPreferredAlias_call (RawBet.creator rawBet)])
       ++ [getPreferredAlias_call (RawBet.participant rawBet)])%list
    (RawBet.judge rawBet).

Definition chain_reads (w : World) (rawBet : RawBet) (h : list Event)
  : Outcome (ContractRead * ContractRead * ContractRead) :=
  readContracts w
    (((formatBet_started h ++ [getPreferredAlias_call (RawBet.creator rawBet)])
        ++ [getPreferredAlias_call (RawBet.participant rawBet)])
       ++ [getPreferredAlias_call (RawBet.judge rawBet)])%list
    config (status_reads (RawBet.contractAddress rawBet)).

(** The trace once the four calls have been issued. *)
Definition formatBet_issued (rawBet : RawBet) (h : list Event) : list Event :=
  ((((formatBet_started h ++ [getPreferredAlias_call (RawBet.creator rawBet)])
       ++ [getPreferredAlias_call (RawBet.participant rawBet)])
      ++ [getPreferredAlias_call (RawBet.judge rawBet)])
     ++ [readContracts_call config (status_reads (RawBet.contractAddress rawBet))])%list.

Definition is_rejected {A} (o : Outcome A) : Prop := exists e, o = Rejected e.
Definition is_resolved {A} (o : Outcome A) : Prop := exists a, o = Resolved a.

(** One of the four concurrent calls of [formatBet] rejects. *)
Definition a_call_rejects (w : World) (rawBet : RawBet) (h : list Event) : Prop :=
  is_rejected (creator_lookup w rawBet h) \/
  is_rejected (participant_lookup w rawBet h) \/
  is_rejected (judge_lookup w rawBet h) \/
  is_rejected (chain_reads w rawBet h).

(** A read of the multi-call failed: its entry has no [result]. *)
Definition read_failed (r : ContractRead) : Prop := exists e, r = ReadFailure e.

(** The multi-call resolves, and one of its three reads failed. *)
Definition a_read_fails (w : World) (rawBet : RawBet) (h : list Event) : Prop :=
  exists status winner judgementReason,
    chain_reads w rawBet h = Resolved (status, winner, judgementReason) /\
    (read_failed status \/ read_failed winner \/ read_failed judgementReason).

(** [formatted_in_order w rawBets fbs h h']: started at trace [h] one after
    the other in the order of the list, the calls [formatBet rawBet] resolve
    with the records [fbs], in the same order, and leave the trace [h']. *)
Inductive formatted_in_order (w : World)
  : list RawBet -> list FormattedBet -> list Event -> list Event -> Prop :=
| formatted_none h :
    formatted_in_order w [] [] h h
| formatted_next rawBet rawBets fb fbs h h1 h2 :
    formatBet w rawBet h = (h1, Resolved fb) ->
    formatted_in_order w rawBets fbs h1 h2 ->
    formatted_in_order w (rawBet :: rawBets) (fb :: fbs) h h2.

(** The requests sent to the API along a trace. *)
Fixpoint fetch_calls (t : list Event) : list (string * RequestInit) :=
  match t with
  | [] => []
  | fetch_call url init :: r => (url, init) :: fetch_calls r
  | _ :: r => fetch_calls r
  end.

(** What an aggregate fetcher that completes as [run] makes of the page its
    raw fetcher, [run_raw], resolves with: it starts by logging [name];
    [keeps_pageInfo] tells whether the [pageInfo] of the page is returned. *)
Definition aggregates (w : World) (name : string) (keeps_pageInfo : bool)
    (run_raw : Promise (option RawBets)) (run : Promise FormattedBets)
    (h : list Event) : Prop :=
  (forall fbs h',
     run h = (h', Resolved fbs) ->
     exists raw h1,
       run_raw (h ++ [console_log name])%list = (h1, Resolved (Some raw)) /\
       formatted_in_order w (RawBets.items raw) (FormattedBets.items fbs) h1 h' /\
       FormattedBets.pageInfo fbs =
         if keeps_pageInfo then RawBets.pageInfo raw else None) /\
  (forall raw h1 fbs h2,
     run_raw (h ++ [console_log name])%list = (h1, Resolved (Some raw)) ->
     formatted_in_order w (RawBets.items raw) fbs h1 h2 ->
     run h = (h2, Resolved {| FormattedBets.items := fbs;
                              FormattedBets.pageInfo :=
                                if keeps_pageInfo then RawBets.pageInfo raw
                                else None |})).

(** The trace once a fetcher has logged [name] at its start and
    [queryGqlApi] has logged its own. *)
Definition before_fetch (h : list Event) (name : string) : list Event :=
  (h ++ [console_log name;
         console_log "Running queryGqlApi..."])%list.

(** How [fetch] completes when a fetcher called at trace [h] sends [q]. *)
Definition answer_at (w : World) (h : list Event) (name : string) (q : string)
  : Outcome Response :=
  fetch w (before_fetch h name) (BET_API_URL w) (post_query q).

(** The stages of a raw fetcher, and where it fails: [query] is the
    completion of the query generator, [answer] tells how [fetch] completes
    on a query, and [data] is looked up in the parsed body. *)
Inductive fetch_failure (query : Outcome string)
    (answer : string -> Outcome Response) : JsError -> Prop :=
| query_construction_fails e :
    query = Rejected e -> fetch_failure query answer e
| fetch_rejects q e :
    query = Resolved q -> answer q = Rejected e -> fetch_failure query answer e
| body_is_not_json q res e :
    query = Resolved q -> answer q = Resolved res -> json res = Rejected e ->
    fetch_failure query answer e
| data_is_missing q res b prop :
    query = Resolved q -> answer q = Resolved res -> json res = Resolved b ->
    data b = None ->
    fetch_failure query answer
      (new_TypeError ("Cannot read properties of undefined (reading '" ++ prop ++ "')")).

(** The error-wrapping contract of a fetcher that completed as [r]: a
    failure of any stage makes it reject with [new Error(errorMsg)], and it
    rejects with nothing else; the error it rejects with has no cause. *)
Definition replaces_errors {A} (r : list Event * Outcome A) (errorMsg : string)
    (query : Outcome string) (answer : string -> Outcome Response) : Prop :=
  (forall e0, fetch_failure query answer e0 ->
              snd r = Rejected (new_Error errorMsg)) /\
  (forall e, snd r = Rejected e ->
             e = new_Error errorMsg /\ error_cause e = None /\
             exists e0, fetch_failure query answer e0).

(** A fetcher that completed as [r] after a response arrived rejects exactly
    when the body of the response is not JSON or has no [data]. *)
Definition rejects_on_body_only {A} (r : list Event * Outcome A)
    (query : Outcome string) (answer : string -> Outcome Response) : Prop :=
  forall q res,
    query = Resolved q -> answer q = Resolved res ->
    ((exists e, snd r = Rejected e) <->
     ((exists e, json res = Rejected e) \/
      (exists b, json res = Resolved b /\ data b = None))).

(** The common shape of the four raw fetchers: [name] is logged, [query] is
    the completion of the query generator, [prop] is the property read from
    [result.data], and [errorMsg] is the message of the function. *)
Definition raw_fetcher {A} (w : World) (name errorMsg prop : string)
    (query : Outcome string) (select : GqlData -> A) : Promise A :=
  (emit (console_log name) ;;;
   try_catch
     (query <- lift query ;;
      result <- queryGqlApi w (BET_API_URL w) query ;;
      d <- lift (property_of (data result) prop) ;;
      ret (select d))
     (rethrow errorMsg))%async.

(** The common shape of the three aggregate fetchers: [name] is logged,
    [run_raw] is the call of the raw fetcher, and [keeps_pageInfo] tells
    whether the object returned has the property [pageInfo]. *)
Definition aggregate_fetcher (w : World) (name errorMsg : string)
    (keeps_pageInfo : bool) (run_raw : Promise (option RawBets))
  : Promise FormattedBets :=
  (emit (console_log name) ;;;
   try_catch
     (rawBets <- run_raw ;;
      formattedBets <- formatAll w rawBets ;;
      ret {| FormattedBets.items := formattedBets;
             FormattedBets.pageInfo :=
               if keeps_pageInfo then pageInfo_of rawBets else None |})
     (rethrow errorMsg))%async.



(** The batches of reads handed to [readContracts] along a trace. *)
Fixpoint read_calls (t : list Event) : list (list ContractCall) :=
  match t with
  | [] => []
  | readContracts_call _ contracts :: r => contracts :: read_calls r
  | _ :: r => read_calls r
  end.

(** The addresses handed to [getPreferredAlias] along a trace. *)
Fixpoint alias_calls (t : list Event) : list Address :=
  match t with
  | [] => []
  | getPreferredAlias_call a :: r => a :: alias_calls r
  | _ :: r => alias_calls r
  end.



(** A fetcher that completed as [r] resolves with the property [select]
    reads from [data] whenever the parsed body has [data], be the property
    missing. *)
Definition returns_property {A} (r : list Event * Outcome A)
    (query : Outcome string) (answer : string -> Outcome Response)
    (select : GqlData -> A) : Prop :=
  forall q res b d,
    query = Resolved q -> answer q = Resolved res -> json res = Resolved b ->
    data b = Some d ->
    snd r = Resolved (select d).

(** One of the items fails to format: those before it are formatted, in
    order from trace [h], and [formatBet] rejects on it. *)
Definition an_item_fails (w : World) (rawBets : list RawBet) (h : list Event)
  : Prop :=
  exists before rawBet after fbs h1 e,
    rawBets = (before ++ rawBet :: after)%list /\
    formatted_in_order w before fbs h h1 /\
    snd (formatBet w rawBet h1) = Rejected e.

(** The calls an aggregate fetcher makes for the items of a page: three
    alias lookups and one batch of reads per item, in the order of the page. *)
Definition alias_calls_of (rawBets : list RawBet) : list Address :=
  flat_map (fun rawBet =>
              [RawBet.creator rawBet; RawBet.participant rawBet; RawBet.judge rawBet])
           rawBets.

Definition read_calls_of (rawBets : list RawBet) : list (list ContractCall) :=
  map (fun rawBet => status_reads (RawBet.contractAddress rawBet)) rawBets.

(** An aggregate fetcher that runs as [run] on the page of its raw fetcher
    is all or nothing, and makes every call of every item whatever fails. *)
Definition page_all_or_nothing (w : World) (name errorMsg : string)
    (run_raw : Promise (option RawBets)) (run : Promise FormattedBets)
    (h : list Event) : Prop :=
  (forall e, snd (run h) = Rejected e -> e = new_Error errorMsg) /\
  (forall h1 e,
     run_raw (h ++ [console_log name])%list = (h1, Rejected e) ->
     snd (run h) = Rejected (new_Error errorMsg)) /\
  (forall h1,
     run_raw (h ++ [console_log name])%list = (h1, Resolved None) ->
     snd (run h) = Rejected (new_Error errorMsg)) /\
  (forall raw h1,
     run_raw (h ++ [console_log name])%list = (h1, Resolved (Some raw)) ->
     an_item_fails w (RawBets.items raw) h1 ->
     snd (run h) = Rejected (new_Error errorMsg)) /\
  (forall raw h1,
     run_raw (h ++ [console_log name])%list = (h1, Resolved (Some raw)) ->
     alias_calls (fst (run h)) =
       (alias_calls h1 ++ alias_calls_of (RawBets.items raw))%list /\
     read_calls (fst (run h)) =
       (read_calls h1 ++ read_calls_of (RawBets.items raw))%list).

End Spec.

(* ================================================================== *)
(** * Tactics *)
(* ================================================================== *)

Import Js Viem Services Spec Samples.

Ltac run_async :=
  unfold raw_fetcher, queryGqlApi, rethrow, bind, try_catch, emit, call, lift,
    ret, throw, start; cbn [fst snd].

Ltac each_char c := destruct c as [[] [] [] [] [] [] [] []].

(* ================================================================== *)
(** * Properties *)
(* ================================================================== *)

(** ** Strings of digits *)

Lemma digit_is_not_white_space c :
  is_digit 10 c = true -> is_white_space c = false.
Proof. each_char c; vm_compute; congruence. Qed.

Lemma digit_value_range c d : digit_value 10 c = Some d -> 0 <= d < 10.
Proof.
  unfold digit_value.
  destruct (_ <? 10) eqn:E; [|discriminate].
  intros [= <-]. apply Z.ltb_lt in E.
  repeat match goal with
         | |- context [if ?b then _ else _] => destruct b eqn:?
         end; lia.
Qed.

Lemma trim_start_no_white_space s :
  all_chars (fun c => negb (is_white_space c)) s = true -> trim_start s = s.
Proof.
  destruct s as [|c r]; [reflexivity|]. cbn.
  destruct (is_white_space c); [discriminate|reflexivity].
Qed.

Lemma trim_end_no_white_space s :
  all_chars (fun c => negb (is_white_space c)) s = true -> trim_end s = s.
Proof.
  induction s as [|c r IH]; [reflexivity|]. cbn.
  destruct (is_white_space c); [discriminate|]. cbn. intros H.
  now rewrite IH.
Qed.

Lemma trim_no_white_space s :
  all_chars (fun c => negb (is_white_space c)) s = true -> trim s = s.
Proof.
  intros H. unfold trim. rewrite trim_start_no_white_space by assumption.
  now apply trim_end_no_white_space.
Qed.

Lemma all_chars_weaken (f g : ascii -> bool) s :
  (forall c, f c = true -> g c = true) ->
  all_chars f s = true -> all_chars g s = true.
Proof.
  intros I. induction s as [|c r IH]; [reflexivity|]. cbn.
  intros H. apply andb_true_iff in H as [Hc Hr].
  now rewrite (I c Hc), IH.
Qed.

Lemma all_chars_app f s t :
  all_chars f (s ++ t) = andb (all_chars f s) (all_chars f t).
Proof.
  induction s as [|c r IH]; [reflexivity|]. cbn. now rewrite IH, andb_assoc.
Qed.

Lemma digits_value_acc_all_digits s acc v :
  digits_value_acc 10 s acc = Some v -> all_chars (is_digit 10) s = true.
Proof.
  revert acc. induction s as [|c r IH]; [reflexivity|]. cbn. intros acc.
  unfold is_digit. destruct (digit_value 10 c); [|discriminate].
  intros H. now apply IH in H.
Qed.

(** The value of a string of digits, by its length and its own value. *)
Lemma digits_value_acc_shift s acc v :
  digits_value_acc 10 s acc = Some v ->
  exists v0, digits_value 10 s = Some v0 /\
             v = acc * 10 ^ Z.of_nat (String.length s) + v0 /\
             0 <= v0 < 10 ^ Z.of_nat (String.length s).
Proof.
  unfold digits_value. revert acc v.
  induction s as [|c r IH]; intros acc v.
  - cbn. intros [= <-]. exists 0. repeat split; lia.
  - cbn [digits_value_acc String.length].
    destruct (digit_value 10 c) as [d|] eqn:Hd; [|discriminate].
    intros H. pose proof (digit_value_range _ _ Hd) as Rd.
    destruct (IH _ _ H) as (v1 & H1 & E1 & R1).
    replace (0 * 10 + d) with d by lia.
    destruct (digits_value_acc 10 r d) as [vd|] eqn:Hvd.
    + destruct (IH _ _ Hvd) as (v2 & H2 & E2 & R2).
      assert (v2 = v1) by congruence. subst v2.
      exists vd. split; [reflexivity|].
      rewrite Nat2Z.inj_succ, Z.pow_succ_r by lia.
      split; [lia|]. nia.
    + exfalso. clear - H Hvd IH.
      apply digits_value_acc_all_digits in H.
      revert Hvd. generalize d. clear - H.
      induction r as [|c r IHr]; [discriminate|]. cbn in *.
      unfold is_digit in H. destruct (digit_value 10 c); [|discriminate].
      intros d0. apply IHr. now destruct (all_chars _ r).
Qed.

Lemma digits_value_total s :
  all_chars (is_digit 10) s = true -> exists v, digits_value 10 s = Some v.
Proof.
  unfold digits_value. generalize 0.
  induction s as [|c r IH]; intros acc; [now exists acc|]. cbn.
  unfold is_digit. destruct (digit_value 10 c); [|discriminate].
  intros H. now apply IH.
Qed.

Lemma digits_value_acc_eq s acc v0 :
  digits_value 10 s = Some v0 ->
  digits_value_acc 10 s acc = Some (acc * 10 ^ Z.of_nat (String.length s) + v0).
Proof.
  intros H.
  pose proof (digits_value_acc_all_digits _ _ _ H) as D.
  assert (exists v, digits_value_acc 10 s acc = Some v) as [v Hv].
  { clear H. revert acc. induction s as [|c r IH]; intros acc; [now eexists|].
    cbn in *. unfold is_digit in D.
    destruct (digit_value 10 c); [|discriminate]. now apply IH. }
  destruct (digits_value_acc_shift _ _ _ Hv) as (v1 & H1 & E1 & _).
  congruence.
Qed.

Lemma digits_value_acc_app s t acc :
  digits_value_acc 10 (s ++ t) acc =
  match digits_value_acc 10 s acc with
  | Some a => digits_value_acc 10 t a
  | None => None
  end.
Proof.
  revert acc. induction s as [|c r IH]; intros acc; [reflexivity|]. cbn.
  destruct (digit_value 10 c); [apply IH|reflexivity].
Qed.

Lemma digits_value_app s t vs vt :
  digits_value 10 s = Some vs -> digits_value 10 t = Some vt ->
  digits_value 10 (s ++ t) = Some (vs * 10 ^ Z.of_nat (String.length t) + vt).
Proof.
  intros Hs Ht. unfold digits_value. rewrite digits_value_acc_app.
  unfold digits_value in Hs. rewrite Hs. now apply digits_value_acc_eq.
Qed.

Lemma digits_literal_inv s n :
  digits_literal 10 s = Some n ->
  is_empty s = false /\ all_chars (is_digit 10) s = true /\
  digits_value 10 s = Some n /\ 0 <= n.
Proof.
  unfold digits_literal. destruct (is_empty s) eqn:E; [discriminate|].
  intros H. repeat split; trivial.
  - eapply digits_value_acc_all_digits; exact H.
  - destruct (digits_value_acc_shift _ _ _ H) as (v0 & _ & -> & R). lia.
Qed.

Lemma digits_have_no_white_space s :
  all_chars (is_digit 10) s = true ->
  all_chars (fun c => negb (is_white_space c)) s = true.
Proof.
  apply all_chars_weaken. intros c H.
  now rewrite (digit_is_not_white_space c H).
Qed.

Lemma digits_no_prefix s :
  all_chars (is_digit 10) s = true -> non_decimal_prefix s = None.
Proof.
  destruct s as [|c [|c' r]]; [reflexivity| |].
  - intros _. each_char c; reflexivity.
  - cbn [all_chars]. intros H.
    apply andb_true_iff in H as [_ H]. apply andb_true_iff in H as [H _].
    each_char c'; try discriminate H; each_char c; reflexivity.
Qed.

(** [BigInt] reads a non-negative integer in decimal text as that integer. *)
Lemma StringToBigInt_decimal s n :
  digits_literal 10 s = Some n -> StringToBigInt s = Some n.
Proof.
  intros H. destruct (digits_literal_inv _ _ H) as (E & D & V & _).
  unfold StringToBigInt.
  rewrite (trim_no_white_space s (digits_have_no_white_space s D)), E.
  rewrite (digits_no_prefix s D).
  destruct s as [|c r]; [discriminate|].
  cbn [all_chars] in D. apply andb_true_iff in D as [Dc _].
  each_char c; try discriminate Dc; exact H.
Qed.

Lemma BigInt_decimal s n :
  digits_literal 10 s = Some n -> BigInt s = Resolved n.
Proof. intros H. unfold BigInt. now rewrite (StringToBigInt_decimal s n H). Qed.

(** [Number] reads a non-negative integer in decimal text as the number
    nearest to that integer. *)
Lemma span_digits_all s :
  all_chars (is_digit 10) s = true -> span_digits s = (s, EmptyString).
Proof.
  induction s as [|c r IH]; [reflexivity|]. cbn. intros H.
  apply andb_true_iff in H as [Hc Hr]. now rewrite Hc, (IH Hr).
Qed.

Lemma Number_decimal_MV s n :
  digits_literal 10 s = Some n ->
  StringNumericLiteral_MV s = Some (MVDecimal false n 0).
Proof.
  intros H. destruct (digits_literal_inv _ _ H) as (E & D & V & _).
  unfold StringNumericLiteral_MV.
  rewrite (trim_no_white_space s (digits_have_no_white_space s D)), E.
  rewrite (digits_no_prefix s D).
  assert (U : unsigned_decimal_literal false s = Some (MVDecimal false n 0)).
  { unfold unsigned_decimal_literal.
    replace (String.eqb s "Infinity") with false.
    - rewrite (span_digits_all s D), E, V. reflexivity.
    - destruct s as [|c r]; [discriminate|].
      cbn [all_chars] in D. apply andb_true_iff in D as [Dc _].
      each_char c; try discriminate Dc; reflexivity. }
  destruct s as [|c r]; [discriminate|].
  cbn [all_chars] in D. apply andb_true_iff in D as [Dc _].
  each_char c; try discriminate Dc; exact U.
Qed.

Lemma Number_decimal s n :
  digits_literal 10 s = Some n -> Number s = number_literal n.
Proof.
  intros H. unfold Number. rewrite (Number_decimal_MV s n H).
  destruct (digits_literal_inv _ _ H) as (_ & _ & _ & P).
  unfold number_of_MV, number_literal.
  destruct n as [|p|p]; [reflexivity| |lia].
  cbn [Z.leb Z.compare]. now rewrite Z.pow_0_r, Z.mul_1_r.
Qed.

(** ** Decimal notation *)

Lemma digit_char d :
  0 <= d < 10 ->
  digit_value 10 (ascii_of_nat (Z.to_nat (48 + d))) = Some d.
Proof.
  intros R.
  assert (C : d = 0 \/ d = 1 \/ d = 2 \/ d = 3 \/ d = 4 \/ d = 5 \/ d = 6 \/
              d = 7 \/ d = 8 \/ d = 9) by lia.
  repeat (destruct C as [->|C]; [reflexivity|]). subst d. reflexivity.
Qed.

Lemma append_empty_r s : s ++ EmptyString = s.
Proof. induction s as [|c r IH]; [reflexivity|]. cbn. now rewrite IH. Qed.

Lemma append_assoc s t u : (s ++ t) ++ u = s ++ (t ++ u).
Proof. induction s as [|c r IH]; [reflexivity|]. cbn. now rewrite IH. Qed.

Lemma length_append s t :
  String.length (s ++ t) = (String.length s + String.length t)%nat.
Proof. induction s as [|c r IH]; [reflexivity|]. cbn. now rewrite IH. Qed.

Lemma is_empty_append s t :
  is_empty s = false -> is_empty (s ++ t) = false.
Proof. destruct s; [discriminate|reflexivity]. Qed.

(** The digits [pos_digits] puts in front of [acc] are those of [n]. *)
Lemma pos_digits_spec fuel :
  forall n acc,
    0 <= n < 10 ^ Z.of_nat (S fuel) ->
    exists ds,
      pos_digits (S fuel) n acc = (ds ++ acc) /\
      is_empty ds = false /\
      all_chars (is_digit 10) ds = true /\
      digits_value 10 ds = Some n.
Proof.
  induction fuel as [|f IH]; intros n acc R.
  - assert (L : (n <? 10) = true) by (apply Z.ltb_lt; cbn in R; lia).
    cbn [pos_digits]. rewrite L.
    exists (String (ascii_of_nat (Z.to_nat (48 + n mod 10))) EmptyString).
    assert (M : n mod 10 = n) by (apply Z.mod_small; cbn in R; lia).
    unfold digits_value, is_digit. cbn [append is_empty all_chars digits_value_acc].
    rewrite M, digit_char by (cbn in R; lia).
    repeat split.
  - change (pos_digits (S (S f)) n acc)
      with (let acc' := String (ascii_of_nat (Z.to_nat (48 + n mod 10))) acc in
            if n <? 10 then acc' else pos_digits (S f) (n / 10) acc').
    cbv zeta.
    pose proof (Z.mod_pos_bound n 10 ltac:(lia)) as Rm.
    destruct (n <? 10) eqn:L.
    + apply Z.ltb_lt in L.
      exists (String (ascii_of_nat (Z.to_nat (48 + n mod 10))) EmptyString).
      assert (M : n mod 10 = n) by (apply Z.mod_small; lia).
      unfold digits_value, is_digit. cbn [append is_empty all_chars digits_value_acc].
      rewrite M, digit_char by lia.
      repeat split.
    + apply Z.ltb_ge in L.
      assert (R' : 0 <= n / 10 < 10 ^ Z.of_nat (S f)).
      { split; [apply Z.div_pos; lia|].
        apply Z.div_lt_upper_bound; [lia|].
        rewrite <- Z.pow_succ_r by lia. rewrite <- Nat2Z.inj_succ. lia. }
      destruct (IH (n / 10)
                   (String (ascii_of_nat (Z.to_nat (48 + n mod 10))) acc) R')
        as (ds & E & Ne & D & V).
      exists (ds ++ String (ascii_of_nat (Z.to_nat (48 + n mod 10))) EmptyString).
      rewrite E, append_assoc. cbn [append].
      split; [reflexivity|]. split; [now apply is_empty_append|].
      split.
      * rewrite all_chars_app, D. cbn [all_chars andb]. unfold is_digit.
        now rewrite digit_char.
      * assert (V1 : digits_value 10
                       (String (ascii_of_nat (Z.to_nat (48 + n mod 10))) EmptyString)
                     = Some (n mod 10)).
        { unfold digits_value. cbn [digits_value_acc].
          rewrite digit_char by lia. reflexivity. }
        rewrite (digits_value_app _ _ _ _ V V1). cbn [String.length].
        f_equal. rewrite (Z.div_mod n 10) at 3 by lia.
        change (10 ^ Z.of_nat 1) with 10. lia.
Qed.

(** [BigInt.prototype.toString] writes a non-negative integer in digits that
    denote it. *)
Lemma nat_toString_spec n :
  0 <= n ->
  is_empty (nat_toString n) = false /\
  all_chars (is_digit 10) (nat_toString n) = true /\
  digits_value 10 (nat_toString n) = Some n.
Proof.
  intros P. unfold nat_toString.
  assert (R : 0 <= n < 10 ^ Z.of_nat (S (Z.to_nat (Z.log2 n)))).
  { split; [exact P|].
    rewrite Nat2Z.inj_succ, Z2Nat.id by apply Z.log2_nonneg.
    destruct (Z.eq_dec n 0) as [->|Nz]; [cbn; lia|].
    pose proof (Z.log2_spec n ltac:(lia)) as [_ U].
    eapply Z.lt_le_trans; [exact U|].
    apply Z.pow_le_mono_l. pose proof (Z.log2_nonneg n). lia. }
  destruct (pos_digits_spec _ n EmptyString R) as (ds & E & Ne & D & V).
  rewrite E, append_empty_r. auto.
Qed.

Lemma BigInt_toString_BigInt n : 0 <= n -> BigInt (BigInt_toString n) = Resolved n.
Proof.
  intros P. destruct (nat_toString_spec n P) as (Ne & D & V).
  unfold BigInt_toString. replace (n <? 0) with false by (symmetry; apply Z.ltb_ge; lia).
  apply BigInt_decimal. unfold digits_literal. now rewrite Ne.
Qed.

(** ** [formatUnits] *)

Lemma repeat_zero_spec k :
  all_chars (is_digit 10) (repeat_char "0" k) = true /\
  digits_value 10 (repeat_char "0" k) = Some 0 /\
  String.length (repeat_char "0" k) = k.
Proof.
  induction k as [|k (D & V & L)]; [repeat split|].
  cbn [repeat_char all_chars String.length]. rewrite D, L.
  repeat split. exact V.
Qed.

Lemma substring_whole s : String.substring 0 (String.length s) s = s.
Proof. induction s as [|c r IH]; [reflexivity|]. cbn. now rewrite IH. Qed.

(** [s.slice(0, k)] and [s.slice(k)] cut [s] in two at position [k]. *)
Lemma slice_split s :
  forall k, (k <= String.length s)%nat ->
    slice_to s k ++ slice_from s k = s /\ String.length (slice_to s k) = k.
Proof.
  unfold slice_to, slice_from.
  induction s as [|c r IH]; intros k Hk.
  - cbn in Hk. assert (k = O) by lia. subst k. split; reflexivity.
  - destruct k as [|k].
    + cbn [String.substring String.length Nat.sub append].
      rewrite substring_whole. split; reflexivity.
    + cbn [String.length] in Hk.
      destruct (IH k ltac:(lia)) as [E L].
      cbn [String.substring String.length Nat.sub append].
      rewrite E, L. split; reflexivity.
Qed.






(** ** Whole numbers in binary64 *)

Lemma digits2_pos_size p : digits2_pos p = Pos.size p.
Proof. induction p as [p IH|p IH|]; cbn; now rewrite ?IH. Qed.

Lemma digits2_pos_bounds p :
  2 ^ (Z.pos (digits2_pos p) - 1) <= Z.pos p < 2 ^ Z.pos (digits2_pos p).
Proof.
  rewrite digits2_pos_size. split.
  - pose proof (Pos.size_le p) as H.
    apply Pos2Z.pos_le_pos in H. rewrite Pos2Z.inj_pow in H.
    change (Z.pos p~0) with (2 * Z.pos p) in H.
    replace (Z.pos (Pos.size p)) with (Z.succ (Z.pos (Pos.size p) - 1)) in H by lia.
    rewrite Z.pow_succ_r in H by lia. lia.
  - pose proof (Pos.size_gt p) as H.
    apply Pos2Z.pos_lt_pos in H. now rewrite Pos2Z.inj_pow in H.
Qed.

Lemma digits2_pos_unique p d :
  2 ^ (d - 1) <= Z.pos p < 2 ^ d -> Z.pos (digits2_pos p) = d.
Proof.
  intros [L U]. pose proof (digits2_pos_bounds p) as [L' U'].
  assert (0 < d).
  { destruct (Z_lt_le_dec 0 d); trivial.
    assert (2 ^ d <= 2 ^ 0) by (apply Z.pow_le_mono_r; lia).
    change (2 ^ 0) with 1 in *. lia. }
  destruct (Z.lt_trichotomy (Z.pos (digits2_pos p)) d) as [C|[C|C]]; trivial.
  - assert (2 ^ Z.pos (digits2_pos p) <= 2 ^ (d - 1))
      by (apply Z.pow_le_mono_r; lia). lia.
  - assert (2 ^ d <= 2 ^ (Z.pos (digits2_pos p) - 1))
      by (apply Z.pow_le_mono_r; lia). lia.
Qed.

Lemma digits2_pos_shift p k :
  0 <= k ->
  Z.pos (digits2_pos (Z.to_pos (Z.pos p * 2 ^ k))) = Z.pos (digits2_pos p) + k.
Proof.
  intros K. apply digits2_pos_unique.
  pose proof (digits2_pos_bounds p) as [L U].
  assert (0 < 2 ^ k) by (apply Z.pow_pos_nonneg; lia).
  rewrite Z2Pos.id by nia.
  replace (Z.pos (digits2_pos p) + k - 1) with (Z.pos (digits2_pos p) - 1 + k) by lia.
  rewrite !Z.pow_add_r by lia. nia.
Qed.

Lemma iter_pos_nat {A} (f : A -> A) k x :
  iter_pos f k x = Nat.iter (Pos.to_nat k) f x.
Proof.
  revert x. induction k as [k IH|k IH|]; intros x; cbn [iter_pos].
  - rewrite !IH, Pos2Nat.inj_xI, Nat.iter_succ_r.
    replace (2 * Pos.to_nat k)%nat with (Pos.to_nat k + Pos.to_nat k)%nat by lia.
    now rewrite Nat.iter_add.
  - rewrite !IH, Pos2Nat.inj_xO.
    replace (2 * Pos.to_nat k)%nat with (Pos.to_nat k + Pos.to_nat k)%nat by lia.
    now rewrite Nat.iter_add.
  - reflexivity.
Qed.

Lemma shr_1_exact_nat k :
  forall p,
    Nat.iter k shr_1 (Build_shr_record (Z.pos p * 2 ^ Z.of_nat k) false false) =
    Build_shr_record (Z.pos p) false false.
Proof.
  induction k as [|k IH]; intros p.
  - cbn [Nat.iter]. now rewrite Z.mul_1_r.
  - rewrite Nat.iter_succ.
    replace (Z.pos p * 2 ^ Z.of_nat (S k)) with (Z.pos (p~0) * 2 ^ Z.of_nat k).
    + rewrite IH. reflexivity.
    + rewrite Nat2Z.inj_succ, Z.pow_succ_r by lia.
      change (Z.pos p~0) with (2 * Z.pos p). ring.
Qed.

Lemma fexp_64 e : fexp prec emax e = fexp64 e.
Proof. reflexivity. Qed.

(** Shifting right a mantissa that ends in [k] zeros loses nothing. *)
Lemma shr_fexp_exact p k e :
  0 < k ->
  fexp64 (Z.pos (digits2_pos p) + k + e) - e = k ->
  shr_fexp prec emax (Z.pos p * 2 ^ k) e loc_Exact =
  (Build_shr_record (Z.pos p) false false, e + k).
Proof.
  intros K F. unfold shr_fexp. rewrite fexp_64.
  assert (0 < 2 ^ k) by (apply Z.pow_pos_nonneg; lia).
  replace (Zdigits2 (Z.pos p * 2 ^ k)) with (Z.pos (digits2_pos p) + k).
  - rewrite F. destruct k as [|q|q]; try lia.
    cbn [shr shr_record_of_loc]. rewrite iter_pos_nat.
    rewrite <- (positive_nat_Z q), shr_1_exact_nat. reflexivity.
  - rewrite <- (digits2_pos_shift p k) by lia.
    destruct (Z.pos p * 2 ^ k) eqn:E; try lia. reflexivity.
Qed.

(** A mantissa of [prec] digits at a representable exponent is not shifted. *)
Lemma shr_fexp_canonical p e :
  Z.pos (digits2_pos p) = 53 -> -1074 <= e ->
  shr_fexp prec emax (Z.pos p) e loc_Exact =
  (Build_shr_record (Z.pos p) false false, e).
Proof.
  intros D E. unfold shr_fexp. rewrite fexp_64. cbn [Zdigits2]. rewrite D.
  unfold fexp64. replace (Z.max (53 + e - 53) (-1074) - e) with 0 by lia.
  reflexivity.
Qed.

Lemma binary_round_aux_canonical p e :
  Z.pos (digits2_pos p) = 53 -> -1074 <= e <= 971 ->
  binary_round_aux prec emax false (Z.pos p) e loc_Exact = S754_finite false p e.
Proof.
  intros D E. unfold binary_round_aux.
  rewrite (shr_fexp_canonical p e D) by lia.
  cbn [shr_m loc_of_shr_record round_nearest_even].
  rewrite (shr_fexp_canonical p e D) by lia.
  cbn [shr_m]. replace (e <=? emax - prec) with true; [reflexivity|].
  symmetry. apply Z.leb_le. unfold emax, prec. lia.
Qed.

Lemma whole_number_digits m :
  Z.pos (digits2_pos m) <= 53 ->
  Z.pos (digits2_pos (Z.to_pos (Z.pos m * 2 ^ (prec - Z.pos (digits2_pos m))))) = 53.
Proof.
  intros D. unfold prec. rewrite digits2_pos_shift by lia. lia.
Qed.

(** A whole number below [2^53] written as a literal, or read by [Number]. *)
Lemma binary_normalize_whole m :
  Z.pos (digits2_pos m) <= 53 ->
  binary_normalize prec emax (Z.pos m) 0 false = whole_number m.
Proof.
  intros D. unfold binary_normalize, binary_round, whole_number.
  rewrite Z.add_0_r, fexp_64. unfold fexp64.
  pose proof (whole_number_digits m D) as W.
  rewrite Z.max_l by lia. unfold shl_align.
  destruct (Z.pos (digits2_pos m) - 53 - 0) as [|q|q] eqn:E; try lia.
  - assert (Z.pos (digits2_pos m) = 53) by lia.
    rewrite binary_round_aux_canonical by lia.
    unfold prec. rewrite H. cbn [Z.sub Z.add Z.opp Z.pos_sub Z.pow Z.pow_pos Pos.iter].
    now rewrite Z.mul_1_r.
  - assert (P : Z.pos (Pos.iter xO m q) =
                Z.pos m * 2 ^ (prec - Z.pos (digits2_pos m))).
    { unfold prec. replace (53 - Z.pos (digits2_pos m)) with (Z.pos q) by lia.
      rewrite <- Z.shiftl_mul_pow2 by lia. unfold Z.shiftl.
      apply Pos.iter_swap_gen. reflexivity. }
    assert (Q : Pos.iter xO m q =
                Z.to_pos (Z.pos m * 2 ^ (prec - Z.pos (digits2_pos m)))).
    { rewrite <- P. reflexivity. }
    rewrite Q.
    rewrite binary_round_aux_canonical; [reflexivity|exact W|lia].
Qed.

Lemma binary_round_aux_exact t k e :
  Z.pos (digits2_pos t) = 53 -> 0 < k -> -1074 <= e + k <= 971 ->
  binary_round_aux prec emax false (Z.pos t * 2 ^ k) e loc_Exact =
  S754_finite false t (e + k).
Proof.
  intros D K E. unfold binary_round_aux.
  rewrite (shr_fexp_exact t k e K).
  - cbn [shr_m loc_of_shr_record round_nearest_even].
    rewrite (shr_fexp_canonical t (e + k) D) by lia.
    cbn [shr_m]. replace (e + k <=? emax - prec) with true; [reflexivity|].
    symmetry. apply Z.leb_le. unfold emax, prec. lia.
  - rewrite D. unfold fexp64. lia.
Qed.

Lemma digits2_pos_below m : Z.pos m < 2 ^ 53 -> Z.pos (digits2_pos m) <= 53.
Proof.
  intros U. pose proof (digits2_pos_bounds m) as [L _].
  destruct (Z_le_gt_dec (Z.pos (digits2_pos m)) 53) as [|G]; trivial.
  assert (2 ^ 53 <= 2 ^ (Z.pos (digits2_pos m) - 1))
    by (apply Z.pow_le_mono_r; lia). lia.
Qed.

Lemma digits2_pos_mul a b :
  Z.pos (digits2_pos a) + Z.pos (digits2_pos b) - 1 <= Z.pos (digits2_pos (a * b)).
Proof.
  pose proof (digits2_pos_bounds a) as [La _].
  pose proof (digits2_pos_bounds b) as [Lb _].
  pose proof (digits2_pos_bounds (a * b)) as [_ U].
  rewrite Pos2Z.inj_mul in U.
  destruct (Z_le_gt_dec (Z.pos (digits2_pos a) + Z.pos (digits2_pos b) - 1)
                        (Z.pos (digits2_pos (a * b)))) as [|G]; trivial.
  assert (P : 2 ^ Z.pos (digits2_pos (a * b)) <=
              2 ^ (Z.pos (digits2_pos a) - 1 + (Z.pos (digits2_pos b) - 1)))
    by (apply Z.pow_le_mono_r; lia).
  rewrite Z.pow_add_r in P by lia.
  assert (0 < 2 ^ (Z.pos (digits2_pos a) - 1)) by (apply Z.pow_pos_nonneg; lia).
  assert (0 < 2 ^ (Z.pos (digits2_pos b) - 1)) by (apply Z.pow_pos_nonneg; lia).
  nia.
Qed.

Lemma whole_number_mantissa m :
  Z.pos (digits2_pos m) <= 53 ->
  Z.pos (Z.to_pos (Z.pos m * 2 ^ (prec - Z.pos (digits2_pos m)))) =
  Z.pos m * 2 ^ (prec - Z.pos (digits2_pos m)).
Proof.
  intros D. apply Z2Pos.id.
  assert (0 < 2 ^ (prec - Z.pos (digits2_pos m)))
    by (apply Z.pow_pos_nonneg; unfold prec; lia).
  nia.
Qed.

(** The product of two whole numbers is exact when it is below [2^53]. *)
Lemma SFmul_whole a b :
  Z.pos (a * b) < 2 ^ 53 ->
  SFmul prec emax (whole_number a) (whole_number b) = whole_number (a * b).
Proof.
  intros U.
  pose proof (digits2_pos_below _ U) as Dp.
  pose proof (digits2_pos_mul a b) as Dm.
  assert (Da : Z.pos (digits2_pos a) <= 53) by lia.
  assert (Db : Z.pos (digits2_pos b) <= 53) by lia.
  unfold whole_number at 1 2. cbn [SFmul xorb].
  rewrite Pos2Z.inj_mul, !whole_number_mantissa by assumption.
  set (da := Z.pos (digits2_pos a)) in *.
  set (db := Z.pos (digits2_pos b)) in *.
  set (dp := Z.pos (digits2_pos (a * b))) in *.
  replace (Z.pos a * 2 ^ (prec - da) * (Z.pos b * 2 ^ (prec - db)))
    with (Z.pos (Z.to_pos (Z.pos (a * b) * 2 ^ (prec - dp))) *
          2 ^ (53 + dp - da - db)).
  - rewrite binary_round_aux_exact.
    + unfold whole_number. fold dp. f_equal. unfold prec. lia.
    + apply whole_number_digits. exact Dp.
    + lia.
    + unfold prec. lia.
  - rewrite whole_number_mantissa by exact Dp. fold dp.
    rewrite Pos2Z.inj_mul. unfold prec.
    replace (53 - da) with ((53 - dp) + (dp - da)) by lia.
    replace (53 + dp - da - db) with ((dp - da) + (53 - db)) by lia.
    rewrite !Z.pow_add_r by lia. ring.
Qed.

Lemma truncate_whole m :
  Z.pos (digits2_pos m) <= 53 -> truncate (whole_number m) = Some (Z.pos m).
Proof.
  intros D. unfold truncate, whole_number.
  rewrite whole_number_mantissa by exact D. unfold prec.
  destruct (0 <=? Z.pos (digits2_pos m) - 53) eqn:E.
  - apply Z.leb_le in E.
    replace (Z.pos (digits2_pos m) - 53) with 0 by lia.
    replace (53 - Z.pos (digits2_pos m)) with 0 by lia.
    f_equal. cbn [Z.pow]. lia.
  - apply Z.leb_gt in E.
    replace (- (Z.pos (digits2_pos m) - 53)) with (53 - Z.pos (digits2_pos m)) by lia.
    f_equal. apply Z.div_mul.
    assert (0 < 2 ^ (53 - Z.pos (digits2_pos m))) by (apply Z.pow_pos_nonneg; lia).
    lia.
Qed.

(** A time in Unix seconds, in decimal text, becomes the date that many
    thousand milliseconds after the epoch, up to the last date there is. *)
Lemma unix_seconds_Date s n :
  digits_literal 10 s = Some n -> n <= 8640000000000 ->
  new_Date (number_mul (Number s) (number_literal 1000)) = ValidDate (n * 1000).
Proof.
  intros H U. rewrite (Number_decimal s n H).
  destruct (digits_literal_inv _ _ H) as (_ & _ & _ & P).
  destruct n as [|m|m]; [reflexivity| |lia].
  unfold number_literal, number_mul, new_Date, TimeClip.
  assert (B : Z.pos (m * 1000) < 2 ^ 53).
  { rewrite Pos2Z.inj_mul. change (2 ^ 53) with 9007199254740992. lia. }
  assert (Bm : Z.pos m < 2 ^ 53) by (change (2 ^ 53) with 9007199254740992; lia).
  rewrite (binary_normalize_whole m (digits2_pos_below m Bm)).
  rewrite (binary_normalize_whole 1000) by (cbn; lia).
  rewrite (SFmul_whole m 1000 B).
  rewrite (truncate_whole _ (digits2_pos_below _ B)).
  rewrite Pos2Z.inj_mul.
  replace (Z.abs (Z.pos m * 1000) <=? 8640000000000000) with true; [reflexivity|].
  symmetry. apply Z.leb_le. lia.
Qed.

(** ** The asynchronous computations *)

Lemma bind_run {Ev A B} (m : Async Ev A) (k : A -> Async Ev B) h :
  bind m k h =
  match m h with
  | (h', Resolved a) => k a h'
  | (h', Rejected e) => (h', Rejected e)
  end.
Proof. reflexivity. Qed.

(** ** The bot endpoint *)

(** C8. [retrieveTxn] rejects a path parameter that [isAddress] refuses, with
    an [Error] without message and before [c.contract] is called (the trace
    is unchanged); for a parameter that [isAddress] accepts it calls
    [c.contract] once, for [retrieveTokens] of the bet ABI on that address on
    chain eip155:42161, and returns its response. *)
Theorem retrieveTxn_validates_address :
  forall (isAddress : string -> bool) (TransactionResponse : Type)
         (c : Bot.TransactionContext TransactionResponse) (h : list Bot.Event),
    Bot.retrieveTxn isAddress c h =
    let a := Bot.contractAddress (Bot.req_param c) in
    let proposal :=
      {| Bot.abi := Bot.betAbi; Bot.to := a;
         Bot.chainId := "eip155:42161"; Bot.functionName := "retrieveTokens" |} in
    if isAddress a
    then ((h ++ [Bot.contract_call proposal])%list, Resolved (Bot.contract c proposal))
    else (h, Rejected (new_Error EmptyString)).
Proof.
  intros isAddress TR c h. unfold Bot.retrieveTxn, Bot.safeParse. cbn.
  destruct (isAddress (Bot.contractAddress (Bot.req_param c))); reflexivity.
Qed.

Example retrieveTxn_accepts :
  Bot.retrieveTxn isAddress_lower
    (context "0xc0ffee0000000000000000000000000000000005") [] =
  ([Bot.contract_call
      {| Bot.abi := Bot.betAbi;
         Bot.to := "0xc0ffee0000000000000000000000000000000005";
         Bot.chainId := "eip155:42161"; Bot.functionName := "retrieveTokens" |}],
   Resolved
      {| Bot.abi := Bot.betAbi;
         Bot.to := "0xc0ffee0000000000000000000000000000000005";
         Bot.chainId := "eip155:42161"; Bot.functionName := "retrieveTokens" |}).
Proof. reflexivity. Qed.

Example retrieveTxn_refuses :
  Bot.retrieveTxn isAddress_lower (context "not-an-address") [] =
  ([], Rejected (new_Error EmptyString)).
Proof. reflexivity. Qed.

(** ** The raw fetchers *)

Lemma getRawBetFromId_shape w betId :
  getRawBetFromId w betId =
  raw_fetcher w "Running getRawBetFromId..." "Failed to get raw bet details from bet id"
    "bet" (generateBetQuery w betId) bet.
Proof. reflexivity. Qed.

Lemma getRawBetsFromIds_shape w betIds :
  getRawBetsFromIds w betIds =
  raw_fetcher w "Running getRawBetsFromIds..." "Failed to get raw bets from bet ids"
    "bets" (generateBetsQuery w betIds) bets.
Proof. reflexivity. Qed.

Lemma getRecentRawBets_shape w numBets page :
  getRecentRawBets w numBets page =
  raw_fetcher w "Running getRecentRawBets..." "Failed to get recent raw bets"
    "bets" (generateRecentBetsQuery w numBets page) bets.
Proof. reflexivity. Qed.

Lemma getUserRawBets_shape w user numBets page :
  getUserRawBets w user numBets page =
  raw_fetcher w "Running getRecentRawBets..." "Failed to get raw bet details for a user"
    "bets" (generateUserBetsQuery w user numBets page) bets.
Proof. reflexivity. Qed.

Section RawFetcher.
Context {A : Type} (w : World) (name errorMsg prop : string)
        (query : Outcome string) (select : GqlData -> A).

(** The completion of a raw fetcher, stage by stage. *)
Lemma raw_fetcher_outcome h :
  snd (raw_fetcher w name errorMsg prop query select h) =
  match query with
  | Rejected _ => Rejected (new_Error errorMsg)
  | Resolved q =>
      match answer_at w h name q with
      | Rejected _ => Rejected (new_Error errorMsg)
      | Resolved res =>
          match json res with
          | Rejected _ => Rejected (new_Error errorMsg)
          | Resolved b =>
              match data b with
              | None => Rejected (new_Error errorMsg)
              | Some d => Resolved (select d)
              end
          end
      end
  end.
Proof.
  unfold answer_at, before_fetch. run_async.
  destruct query as [q|e]; cbn; [|reflexivity].
  rewrite <- app_assoc. cbn.
  destruct (fetch w _ _ _) as [res|e]; cbn; [|reflexivity].
  destruct (json res) as [b|e]; cbn; [|reflexivity].
  destruct (data b); reflexivity.
Qed.

Lemma raw_fetcher_failure h e0 :
  fetch_failure query (answer_at w h name) e0 ->
  snd (raw_fetcher w name errorMsg prop query select h) = Rejected (new_Error errorMsg).
Proof.
  intros F. rewrite raw_fetcher_outcome.
  destruct F as [e Hq | q e Hq Ha | q res e Hq Ha Hj | q res b p Hq Ha Hj Hd];
    rewrite Hq; try rewrite Ha; try rewrite Hj; try rewrite Hd; reflexivity.
Qed.

Lemma raw_fetcher_rejection h e :
  snd (raw_fetcher w name errorMsg prop query select h) = Rejected e ->
  e = new_Error errorMsg /\
  exists e0, fetch_failure query (answer_at w h name) e0.
Proof.
  rewrite raw_fetcher_outcome. intros H.
  destruct query as [q|eq] eqn:Hq.
  - destruct (answer_at w h name q) as [res|ea] eqn:Ha.
    + destruct (json res) as [b|ej] eqn:Hj.
      * destruct (data b) as [d|] eqn:Hd; [discriminate|].
        split; [congruence|]. eexists.
        eapply (data_is_missing _ _ q res b prop); eauto.
      * split; [congruence|]. exists ej. eapply body_is_not_json; eauto.
    + split; [congruence|]. exists ea. eapply fetch_rejects; eauto.
  - split; [congruence|]. exists eq. now apply query_construction_fails.
Qed.

(** The text of the error that was caught goes to the console, and nowhere
    else. *)
Lemma raw_fetcher_logs_cause h e0 :
  fetch_failure query (answer_at w h name) e0 ->
  exists e1, fetch_failure query (answer_at w h name) e1 /\
    last (fst (raw_fetcher w name errorMsg prop query select h)) (console_log EmptyString) =
    console_error (errorMsg ++ ": " ++ error_toString e1).
Proof.
  intros F. unfold answer_at, before_fetch in *. run_async.
  destruct F as [e Hq | q e Hq Ha | q res e Hq Ha Hj | q res b p Hq Ha Hj Hd];
    rewrite Hq; cbn.
  - exists e. split; [now apply query_construction_fails|].
    now rewrite last_last.
  - rewrite <- app_assoc; cbn. rewrite Ha; cbn. exists e.
    split; [eapply fetch_rejects; eauto|]. now rewrite last_last.
  - rewrite <- app_assoc; cbn. rewrite Ha; cbn. rewrite Hj; cbn. exists e.
    split; [eapply body_is_not_json; eauto|]. now rewrite last_last.
  - rewrite <- app_assoc; cbn. rewrite Ha; cbn. rewrite Hj, Hd; cbn.
    eexists. split; [eapply (data_is_missing _ _ q res b prop); eauto|].
    now rewrite last_last.
Qed.
End RawFetcher.

(** C4. Each of the four raw fetchers replaces every error of its stages
    (the query generator throws, [fetch] rejects, the body is not JSON, or
    [data] is missing from the parsed body) by a rejection with
    [new Error] of its own fixed message; it rejects with no other error,
    and that error carries no cause. *)
Theorem raw_fetchers_replace_errors :
  forall (w : World) (h : list Event),
    (forall betId,
       replaces_errors (getRawBetFromId w betId h)
         "Failed to get raw bet details from bet id"
         (generateBetQuery w betId)
         (answer_at w h "Running getRawBetFromId...")) /\
    (forall betIds,
       replaces_errors (getRawBetsFromIds w betIds h)
         "Failed to get raw bets from bet ids"
         (generateBetsQuery w betIds)
         (answer_at w h "Running getRawBetsFromIds...")) /\
    (forall numBets page,
       replaces_errors (getRecentRawBets w numBets page h)
         "Failed to get recent raw bets"
         (generateRecentBetsQuery w numBets page)
         (answer_at w h "Running getRecentRawBets...")) /\
    (forall user numBets page,
       replaces_errors (getUserRawBets w user numBets page h)
         "Failed to get raw bet details for a user"
         (generateUserBetsQuery w user numBets page)
         (answer_at w h "Running getRecentRawBets...")).
Proof.
  intros w h.
  assert (G : forall A name msg prop query (select : GqlData -> A),
             replaces_errors (raw_fetcher w name msg prop query select h)
               msg query (answer_at w h name)).
  { intros A name msg prop query select. split.
    - intros e0 F. eapply raw_fetcher_failure; eauto.
    - intros e He. apply raw_fetcher_rejection in He as [-> Hex].
      repeat split; trivial. }
  split; [|split; [|split]]; intros.
  - rewrite getRawBetFromId_shape; apply G.
  - rewrite getRawBetsFromIds_shape; apply G.
  - rewrite getRecentRawBets_shape; apply G.
  - rewrite getUserRawBets_shape; apply G.
Qed.

Lemma raw_fetchers_replace_errors_witness :
  snd (getRawBetFromId (world_api (Resolved bad_gateway) pending_reads)
         (number_literal 5) []) =
  Rejected (new_Error "Failed to get raw bet details from bet id").
Proof.
  apply (proj1 (proj1 (raw_fetchers_replace_errors
                         (world_api (Resolved bad_gateway) pending_reads) [])
                      (number_literal 5))
               (new_SyntaxError "Unexpected token < in JSON at position 0")).
  eapply body_is_not_json; reflexivity.
Defined.

Example getRawBetFromId_graphql_error :
  getRawBetFromId (world_api (Resolved graphql_error) pending_reads)
    (number_literal 5) [] =
  ([console_log "Running getRawBetFromId...";
    console_log "Running queryGqlApi...";
    fetch_call "https://api.example/graphql" (post_query "bet");
    console_error
      "Failed to get raw bet details from bet id: TypeError: Cannot read properties of undefined (reading 'bet')"],
   Rejected (new_Error "Failed to get raw bet details from bet id")).
Proof. reflexivity. Qed.

(** ** The HTTP status code *)

Lemma queryGqlApi_restatus f w url query h :
  queryGqlApi (restatus f w) url query h = queryGqlApi w url query h.
Proof.
  run_async. cbn [fetch restatus].
  destruct (fetch w _ url _) as [res|e]; reflexivity.
Qed.

Lemma raw_fetcher_restatus {A} f w name msg prop query (select : GqlData -> A) h :
  raw_fetcher (restatus f w) name msg prop query select h =
  raw_fetcher w name msg prop query select h.
Proof.
  unfold raw_fetcher. rewrite !bind_run. cbn [emit].
  unfold try_catch. rewrite !bind_run.
  destruct (lift query _) as [h' [q|e]]; [|reflexivity].
  rewrite !bind_run, queryGqlApi_restatus. reflexivity.
Qed.

Lemma raw_fetcher_body_only {A} w name msg prop query (select : GqlData -> A) h :
  rejects_on_body_only (raw_fetcher w name msg prop query select h)
    query (answer_at w h name).
Proof.
  intros q res Hq Ha. rewrite raw_fetcher_outcome, Hq, Ha.
  destruct (json res) as [b|e].
  - destruct (data b) as [d|] eqn:Hd.
    + split.
      * intros [e He]; discriminate.
      * intros [[e He]|[b' [Hb' Hn]]]; [discriminate|].
        injection Hb' as <-. congruence.
    + split; [|eauto]. intros _. right. eauto.
  - split; eauto.
Qed.

(** C10. [queryGqlApi] never looks at the HTTP status code: replacing every
    status code by any other leaves it, and the raw fetchers, unchanged, and
    when [fetch] resolves it completes as [res.json()] does. Hence, once a
    response has arrived, a raw fetcher rejects exactly when the body is not
    JSON or the parsed body has no [data]. *)
Theorem queryGqlApi_never_inspects_status :
  forall (w : World) (h : list Event),
    (forall f url query,
       queryGqlApi (restatus f w) url query h = queryGqlApi w url query h) /\
    (forall url query res,
       fetch w (h ++ [console_log "Running queryGqlApi..."])%list url
             (post_query query) = Resolved res ->
       snd (queryGqlApi w url query h) = json res) /\
    (forall f betId,
       getRawBetFromId (restatus f w) betId h = getRawBetFromId w betId h) /\
    (forall f betIds,
       getRawBetsFromIds (restatus f w) betIds h = getRawBetsFromIds w betIds h) /\
    (forall f numBets page,
       getRecentRawBets (restatus f w) numBets page h =
       getRecentRawBets w numBets page h) /\
    (forall f user numBets page,
       getUserRawBets (restatus f w) user numBets page h =
       getUserRawBets w user numBets page h) /\
    (forall betId,
       rejects_on_body_only (getRawBetFromId w betId h)
         (generateBetQuery w betId)
         (answer_at w h "Running getRawBetFromId...")) /\
    (forall betIds,
       rejects_on_body_only (getRawBetsFromIds w betIds h)
         (generateBetsQuery w betIds)
         (answer_at w h "Running getRawBetsFromIds...")) /\
    (forall numBets page,
       rejects_on_body_only (getRecentRawBets w numBets page h)
         (generateRecentBetsQuery w numBets page)
         (answer_at w h "Running getRecentRawBets...")) /\
    (forall user numBets page,
       rejects_on_body_only (getUserRawBets w user numBets page h)
         (generateUserBetsQuery w user numBets page)
         (answer_at w h "Running getRecentRawBets...")).
Proof.
  intros w h.
  refine (conj _ (conj _ (conj _ (conj _ (conj _ (conj _ (conj _ (conj _ (conj _ _)))))))));
    intros.
  - apply queryGqlApi_restatus.
  - unfold queryGqlApi. run_async. rewrite H. reflexivity.
  - rewrite !getRawBetFromId_shape. apply raw_fetcher_restatus.
  - rewrite !getRawBetsFromIds_shape. apply raw_fetcher_restatus.
  - rewrite !getRecentRawBets_shape. apply raw_fetcher_restatus.
  - rewrite !getUserRawBets_shape. apply raw_fetcher_restatus.
  - rewrite getRawBetFromId_shape. apply raw_fetcher_body_only.
  - rewrite getRawBetsFromIds_shape. apply raw_fetcher_body_only.
  - rewrite getRecentRawBets_shape. apply raw_fetcher_body_only.
  - rewrite getUserRawBets_shape. apply raw_fetcher_body_only.
Qed.

(** A response with status 500 and a well-formed body is not an error for
    the fetcher. *)
Lemma queryGqlApi_never_inspects_status_witness :
  snd (queryGqlApi (world 500 pending_reads) "https://api.example/graphql"
         "bet" []) = Resolved page_body.
Proof.
  apply (proj1 (proj2 (queryGqlApi_never_inspects_status
                         (world 500 pending_reads) []))
               "https://api.example/graphql" "bet"
               {| status := 500; json := Resolved page_body |}).
  reflexivity.
Defined.

Example getRawBetFromId_status_500 :
  snd (getRawBetFromId (world 500 pending_reads) (number_literal 5) []) =
  Resolved (Some bet5).
Proof. reflexivity. Qed.

(** ** [formatBet] *)

Lemma rejected_not_resolved {A} (o : Outcome A) :
  is_rejected o <-> ~ is_resolved o.
Proof.
  split.
  - intros [e ->] [a H]; discriminate.
  - destruct o as [a|e]; [intros H; exfalso; apply H; now exists a|].
    intros _. now exists e.
Qed.

(** The completion of [formatBet]: the record when the four promises resolve
    and the amount is an integer literal, the fixed error otherwise. *)
Lemma formatBet_outcome w rawBet h :
  snd (formatBet w rawBet h) =
  match creator_lookup w rawBet h, participant_lookup w rawBet h,
        judge_lookup w rawBet h, chain_reads w rawBet h,
        BigInt (RawBet.amount rawBet) with
  | Resolved creatorAlias, Resolved participantAlias, Resolved judgeAlias,
    Resolved (status, winner, judgementReason), Resolved n =>
      Resolved
        {| FormattedBet.betId := Number (RawBet.id rawBet);
           FormattedBet.contractAddress := RawBet.contractAddress rawBet;
           FormattedBet.creator := RawBet.creator rawBet;
           FormattedBet.creatorAlias := creatorAlias;
           FormattedBet.participant := RawBet.participant rawBet;
           FormattedBet.participantAlias := participantAlias;
           FormattedBet.amount := Number (formatUnits n 6);
           FormattedBet.bigintAmount := n;
           FormattedBet.token := RawBet.token rawBet;
           FormattedBet.message := RawBet.message rawBet;
           FormattedBet.judge := RawBet.judge rawBet;
           FormattedBet.judgeAlias := judgeAlias;
           FormattedBet.validUntil :=
             new_Date (number_mul (Number (RawBet.validUntil rawBet))
                                  (number_literal 1000));
           FormattedBet.createdTime :=
             new_Date (number_mul (Number (RawBet.createdTime rawBet))
                                  (number_literal 1000));
           FormattedBet.status := result status;
           FormattedBet.winner := result winner;
           FormattedBet.judgementReason := result judgementReason |}
  | _, _, _, _, _ => Rejected (new_Error "Failed to format bets from raw bets")
  end.
Proof.
  unfold formatBet, creator_lookup, participant_lookup, judge_lookup,
    chain_reads, formatBet_started, Promise_all4.
  run_async.
  destruct (getPreferredAlias w _ (RawBet.creator rawBet)) as [a1|e1];
  destruct (getPreferredAlias w _ (RawBet.participant rawBet)) as [a2|e2];
  destruct (getPreferredAlias w _ (RawBet.judge rawBet)) as [a3|e3];
  destruct (readContracts w _ _ _) as [[[st wi] jr]|e4]; cbn;
  try reflexivity.
  destruct (BigInt (RawBet.amount rawBet)) as [n|e]; reflexivity.
Qed.

(** The calls of [formatBet] are issued whatever their completion. *)
Lemma formatBet_trace w rawBet h :
  exists tail,
    fst (formatBet w rawBet h) = (formatBet_issued rawBet h ++ tail)%list /\
    (is_resolved (snd (formatBet w rawBet h)) -> tail = []).
Proof.
  unfold formatBet, formatBet_issued, formatBet_started, Promise_all4.
  run_async.
  destruct (getPreferredAlias w _ (RawBet.creator rawBet)) as [a1|e1];
  destruct (getPreferredAlias w _ (RawBet.participant rawBet)) as [a2|e2];
  destruct (getPreferredAlias w _ (RawBet.judge rawBet)) as [a3|e3];
  destruct (readContracts w _ _ _) as [[[st wi] jr]|e4]; cbn;
  try (eexists; split; [reflexivity|intros [fb H]; discriminate]).
  destruct (BigInt (RawBet.amount rawBet)) as [n|e]; cbn.
  - exists []. split; [now rewrite app_nil_r|reflexivity].
  - eexists; split; [reflexivity|intros [fb H]; discriminate].
Qed.

Example formatBet_bet5_pending :
  snd (formatBet (world 200 pending_reads) bet5 []) = Resolved bet5_pending.
Proof. vm_compute. reflexivity. Qed.

Example formatBet_without_names :
  formatBet (without_names (world 200 pending_reads)) bet5 [] =
  ([console_log "Running formatBet...";
    getPreferredAlias_call (RawBet.creator bet5);
    getPreferredAlias_call (RawBet.participant bet5);
    getPreferredAlias_call (RawBet.judge bet5);
    readContracts_call config (status_reads (RawBet.contractAddress bet5));
    console_error
      "Failed to format bets from raw bets: Error: name service unavailable"],
   Rejected (new_Error "Failed to format bets from raw bets")).
Proof. vm_compute. reflexivity. Qed.

Lemma formatBet_rejection w rawBet h e :
  snd (formatBet w rawBet h) = Rejected e ->
  e = new_Error "Failed to format bets from raw bets".
Proof.
  rewrite formatBet_outcome.
  destruct (creator_lookup w rawBet h), (participant_lookup w rawBet h),
    (judge_lookup w rawBet h), (chain_reads w rawBet h) as [[[st wi] jr]|],
    (BigInt (RawBet.amount rawBet)); congruence.
Qed.

Lemma formatBet_resolution w rawBet h fb :
  snd (formatBet w rawBet h) = Resolved fb ->
  exists creatorAlias participantAlias judgeAlias status winner judgementReason n,
    creator_lookup w rawBet h = Resolved creatorAlias /\
    participant_lookup w rawBet h = Resolved participantAlias /\
    judge_lookup w rawBet h = Resolved judgeAlias /\
    chain_reads w rawBet h = Resolved (status, winner, judgementReason) /\
    BigInt (RawBet.amount rawBet) = Resolved n /\
    FormattedBet.betId fb = Number (RawBet.id rawBet) /\
    FormattedBet.amount fb = Number (formatUnits n 6) /\
    FormattedBet.bigintAmount fb = n /\
    FormattedBet.validUntil fb =
      new_Date (number_mul (Number (RawBet.validUntil rawBet)) (number_literal 1000)) /\
    FormattedBet.createdTime fb =
      new_Date (number_mul (Number (RawBet.createdTime rawBet)) (number_literal 1000)) /\
    FormattedBet.status fb = result status /\
    FormattedBet.winner fb = result winner /\
    FormattedBet.judgementReason fb = result judgementReason.
Proof.
  rewrite formatBet_outcome.
  destruct (creator_lookup w rawBet h) as [a1|]; [|discriminate].
  destruct (participant_lookup w rawBet h) as [a2|]; [|discriminate].
  destruct (judge_lookup w rawBet h) as [a3|]; [|discriminate].
  destruct (chain_reads w rawBet h) as [[[st wi] jr]|]; [|discriminate].
  destruct (BigInt (RawBet.amount rawBet)) as [n|]; [|discriminate].
  intros [= <-]. exists a1, a2, a3, st, wi, jr, n. cbn.
  repeat split; reflexivity.
Qed.

(** When the four calls resolve and the amount is decimal text, [formatBet]
    resolves. *)
Lemma formatBet_resolves w rawBet h n :
  is_resolved (creator_lookup w rawBet h) ->
  is_resolved (participant_lookup w rawBet h) ->
  is_resolved (judge_lookup w rawBet h) ->
  is_resolved (chain_reads w rawBet h) ->
  digits_literal 10 (RawBet.amount rawBet) = Some n ->
  is_resolved (snd (formatBet w rawBet h)).
Proof.
  intros [a1 H1] [a2 H2] [a3 H3] [[[st wi] jr] H4] Hn.
  rewrite formatBet_outcome, H1, H2, H3, H4, (BigInt_decimal _ _ Hn).
  eexists; reflexivity.
Qed.

(** C1, as the code has it. When one of the three alias lookups rejects, or
    the batched [readContracts] call itself rejects, [formatBet] rejects with
    its fixed error and yields no [FormattedBet]. (A read that fails inside a
    batch that resolves is not such a rejection.) *)
Theorem formatBet_all_or_nothing :
  forall (w : World) (rawBet : RawBet) (h : list Event),
    a_call_rejects w rawBet h ->
    snd (formatBet w rawBet h) =
      Rejected (new_Error "Failed to format bets from raw bets") /\
    (forall fb, snd (formatBet w rawBet h) <> Resolved fb).
Proof.
  intros w rawBet h R.
  assert (E : snd (formatBet w rawBet h) =
              Rejected (new_Error "Failed to format bets from raw bets")).
  { rewrite formatBet_outcome.
    destruct R as [[e R]|[[e R]|[[e R]|[e R]]]]; rewrite R;
      destruct (creator_lookup w rawBet h), (participant_lookup w rawBet h),
        (judge_lookup w rawBet h); try reflexivity;
      destruct (chain_reads w rawBet h) as [[[st wi] jr]|]; reflexivity. }
  split; [exact E|]. intros fb. rewrite E. discriminate.
Qed.

Lemma formatBet_all_or_nothing_witness :
  snd (formatBet (without_names (world 200 pending_reads)) bet5 []) =
    Rejected (new_Error "Failed to format bets from raw bets") /\
  (forall fb, snd (formatBet (without_names (world 200 pending_reads)) bet5 [])
              <> Resolved fb).
Proof.
  apply (formatBet_all_or_nothing (without_names (world 200 pending_reads)) bet5 []).
  left. exists (new_Error "name service unavailable"). reflexivity.
Defined.

(** C1, as stated, fails: in the world [world 200 pending_reads] the reads
    [winner] and [judgementReason] of the batch fail, and [formatBet] resolves
    with a record whose other fields are filled in. *)
Lemma formatBet_failed_read_counterexample :
  ~ (forall (w : World) (rawBet : RawBet) (h : list Event),
       a_call_rejects w rawBet h \/ a_read_fails w rawBet h ->
       is_rejected (snd (formatBet w rawBet h))).
Proof.
  intros claim.
  destruct (claim (world 200 pending_reads) bet5 []) as [e He].
  - right. exists (ReadSuccess "pending"),
      (ReadFailure (new_Error "execution reverted")),
      (ReadFailure (new_Error "execution reverted")).
    split; [reflexivity|]. right; left. eexists; reflexivity.
  - rewrite formatBet_bet5_pending in He. discriminate.
Qed.



(** C6. When [formatBet] yields a record, [validUntil] and [createdTime] are
    [new Date(Number(raw) * 1000)] for the corresponding raw field; for a
    raw field that is a number [n] of Unix seconds in decimal text, up to
    8.64e12, that is the date [1000 * n] ms after the epoch. *)
Theorem formatBet_dates :
  forall (w : World) (rawBet : RawBet) (h : list Event) (fb : FormattedBet),
    snd (formatBet w rawBet h) = Resolved fb ->
    FormattedBet.validUntil fb =
      new_Date (number_mul (Number (RawBet.validUntil rawBet)) (number_literal 1000)) /\
    FormattedBet.createdTime fb =
      new_Date (number_mul (Number (RawBet.createdTime rawBet)) (number_literal 1000)) /\
    (forall n, digits_literal 10 (RawBet.validUntil rawBet) = Some n ->
               n <= 8640000000000 ->
               FormattedBet.validUntil fb = ValidDate (n * 1000)) /\
    (forall n, digits_literal 10 (RawBet.createdTime rawBet) = Some n ->
               n <= 8640000000000 ->
               FormattedBet.createdTime fb = ValidDate (n * 1000)).
Proof.
  intros w rawBet h fb H.
  destruct (formatBet_resolution w rawBet h fb H)
    as (a1 & a2 & a3 & st & wi & jr & n & _ & _ & _ & _ & _ & _ & _ & _ & Hv & Hc & _).
  rewrite Hv, Hc. repeat split; intros m Hm Um; now apply unix_seconds_Date.
Qed.

Lemma formatBet_dates_witness :
  FormattedBet.validUntil bet5_pending =
    new_Date (number_mul (Number (RawBet.validUntil bet5)) (number_literal 1000)) /\
  FormattedBet.createdTime bet5_pending =
    new_Date (number_mul (Number (RawBet.createdTime bet5)) (number_literal 1000)) /\
  (forall n, digits_literal 10 (RawBet.validUntil bet5) = Some n ->
             n <= 8640000000000 ->
             FormattedBet.validUntil bet5_pending = ValidDate (n * 1000)) /\
  (forall n, digits_literal 10 (RawBet.createdTime bet5) = Some n ->
             n <= 8640000000000 ->
             FormattedBet.createdTime bet5_pending = ValidDate (n * 1000)).
Proof.
  apply (formatBet_dates (world 200 pending_reads) bet5 [] bet5_pending).
  vm_compute. reflexivity.
Defined.

(** C7. For a raw bet with id "5", amount "1500000", validUntil "1700000000"
    and createdTime "1690000000" whose four calls resolve, [formatBet] yields
    a record with betId 5, amount 1.5, bigintAmount 1500000 and the dates
    1700000000000 ms and 1690000000000 ms; and in every record [formatBet]
    yields, betId is [Number] of the raw id and bigintAmount is the integer
    the raw amount denotes. *)
Theorem formatBet_scenario :
  forall (w : World) (rawBet : RawBet) (h : list Event),
    (RawBet.id rawBet = "5" ->
     RawBet.amount rawBet = "1500000" ->
     RawBet.validUntil rawBet = "1700000000" ->
     RawBet.createdTime rawBet = "1690000000" ->
     is_resolved (creator_lookup w rawBet h) ->
     is_resolved (participant_lookup w rawBet h) ->
     is_resolved (judge_lookup w rawBet h) ->
     is_resolved (chain_reads w rawBet h) ->
     exists fb,
       snd (formatBet w rawBet h) = Resolved fb /\
       FormattedBet.betId fb = number_literal 5 /\
       FormattedBet.amount fb = Number "1.5" /\
       number_to_Q (FormattedBet.amount fb) = Some (6755399441055744 # 4503599627370496) /\
       (6755399441055744 # 4503599627370496 == 3 # 2)%Q /\
       FormattedBet.bigintAmount fb = 1500000 /\
       FormattedBet.validUntil fb = ValidDate 1700000000000 /\
       FormattedBet.createdTime fb = ValidDate 1690000000000) /\
    (forall fb,
       snd (formatBet w rawBet h) = Resolved fb ->
       FormattedBet.betId fb = Number (RawBet.id rawBet) /\
       (forall n, digits_literal 10 (RawBet.amount rawBet) = Some n ->
                  FormattedBet.bigintAmount fb = n)).
Proof.
  intros w rawBet h. split.
  - intros Hid Ham Hvu Hct L1 L2 L3 L4.
    destruct (formatBet_resolves w rawBet h 1500000 L1 L2 L3 L4) as [fb Hfb].
    { rewrite Ham. reflexivity. }
    exists fb. split; [exact Hfb|].
    destruct (formatBet_resolution w rawBet h fb Hfb)
      as (a1 & a2 & a3 & st & wi & jr & n & _ & _ & _ & _ & Hn & Hb & Ha & Hbig
          & Hv & Hc & _).
    rewrite Ham in Hn. injection Hn as <-.
    rewrite Hb, Ha, Hbig, Hv, Hc, Hid, Hvu, Hct.
    repeat split; vm_compute; reflexivity.
  - intros fb Hfb.
    destruct (formatBet_resolution w rawBet h fb Hfb)
      as (a1 & a2 & a3 & st & wi & jr & n & _ & _ & _ & _ & Hn & Hb & _ & Hbig & _).
    split; [exact Hb|]. intros m Hm.
    rewrite (BigInt_decimal _ _ Hm) in Hn. congruence.
Qed.

Lemma formatBet_scenario_witness :
  exists fb,
    snd (formatBet (world 200 pending_reads) bet5 []) = Resolved fb /\
    FormattedBet.betId fb = number_literal 5 /\
    FormattedBet.amount fb = Number "1.5" /\
    number_to_Q (FormattedBet.amount fb) = Some (6755399441055744 # 4503599627370496) /\
    (6755399441055744 # 4503599627370496 == 3 # 2)%Q /\
    FormattedBet.bigintAmount fb = 1500000 /\
    FormattedBet.validUntil fb = ValidDate 1700000000000 /\
    FormattedBet.createdTime fb = ValidDate 1690000000000.
Proof.
  apply (proj1 (formatBet_scenario (world 200 pending_reads) bet5 []));
    try reflexivity; eexists; reflexivity.
Defined.

(** ** The aggregate fetchers *)

(** [rawBets.items.map((bet) => formatBet(bet))]: every call is started, in
    the order of the items. *)
Lemma start_each_formatted w rawBets fbs h h' :
  formatted_in_order w rawBets fbs h h' ->
  start_each (formatBet w) rawBets h = (h', Resolved (map Resolved fbs)).
Proof.
  induction 1 as [h|rawBet rawBets fb fbs h h1 h2 H1 _ IH]; [reflexivity|].
  cbn [start_each]. rewrite bind_run. unfold start at 1. rewrite H1.
  rewrite bind_run, IH. reflexivity.
Qed.

Lemma resolutions_map_Resolved {A} (vs : list A) :
  resolutions (map Resolved vs) = Some vs.
Proof. induction vs as [|v vs IH]; [reflexivity|]. cbn. now rewrite IH. Qed.

Lemma resolutions_inv {A} (ps : list (Outcome A)) vs :
  resolutions ps = Some vs -> ps = map Resolved vs.
Proof.
  revert vs. induction ps as [|[a|e] ps IH]; intros vs; cbn.
  - now intros [= <-].
  - destruct (resolutions ps) as [vs'|]; [|discriminate].
    intros [= <-]. cbn. now rewrite (IH vs').
  - discriminate.
Qed.

Lemma start_each_resolves w rawBets h :
  exists ps, start_each (formatBet w) rawBets h =
             (fst (start_each (formatBet w) rawBets h), Resolved ps).
Proof.
  revert h. induction rawBets as [|rawBet rawBets IH]; intros h.
  - now exists [].
  - cbn [start_each]. rewrite !bind_run. unfold start at 1 2.
    destruct (formatBet w rawBet h) as [h1 o].
    rewrite !bind_run. destruct (IH h1) as [ps ->]. cbn.
    unfold ret. eexists. reflexivity.
Qed.

Lemma start_each_inv w rawBets fbs h h' :
  start_each (formatBet w) rawBets h = (h', Resolved (map Resolved fbs)) ->
  formatted_in_order w rawBets fbs h h'.
Proof.
  revert fbs h. induction rawBets as [|rawBet rawBets IH]; intros fbs h.
  - cbn. unfold ret. destruct fbs; [|discriminate]. intros [= <-]. constructor.
  - cbn [start_each]. rewrite bind_run. unfold start at 1.
    destruct (formatBet w rawBet h) as [h1 o] eqn:E1.
    rewrite bind_run.
    destruct (start_each_resolves w rawBets h1) as [ps E]. rewrite E.
    unfold ret. destruct fbs as [|fb fbs]; [discriminate|]. cbn [map].
    intros [= <- -> ->].
    econstructor; [exact E1|]. apply IH. now rewrite E.
Qed.

(** [formatAll] resolves exactly when every item is formatted, in order. *)
Lemma formatAll_resolution w raw fbs h h' :
  formatAll w (Some raw) h = (h', Resolved fbs) <->
  formatted_in_order w (RawBets.items raw) fbs h h'.
Proof.
  unfold formatAll. rewrite bind_run. unfold lift. cbn [property_of].
  rewrite bind_run.
  destruct (start_each_resolves w (RawBets.items raw) h) as [ps E].
  split.
  - rewrite E. unfold Promise_all.
    destruct (resolutions ps) as [vs|] eqn:R; [|discriminate].
    intros [= <- <-]. apply start_each_inv.
    rewrite E. now rewrite (resolutions_inv ps vs R).
  - intros F. rewrite (start_each_formatted w _ _ _ _ F).
    unfold Promise_all. now rewrite resolutions_map_Resolved.
Qed.

Lemma formatAll_missing_page w h :
  exists e, formatAll w None h = (h, Rejected e).
Proof. eexists. reflexivity. Qed.

Section Aggregate.
Context (w : World) (name errorMsg : string) (keeps_pageInfo : bool)
        (run_raw : Promise (option RawBets)).

Lemma aggregate_spec h :
  aggregates w name keeps_pageInfo run_raw
    (aggregate_fetcher w name errorMsg keeps_pageInfo run_raw) h.
Proof.
  unfold aggregates, aggregate_fetcher. split.
  - intros fbs h'. rewrite bind_run. cbn [emit]. unfold try_catch.
    rewrite bind_run.
    destruct (run_raw (h ++ [console_log name])%list) as [h1 [[raw|]|e]] eqn:ER.
    + rewrite bind_run.
      destruct (formatAll w (Some raw) h1) as [h2 [vs|e]] eqn:EF.
      * unfold ret. intros [= <- <-]. exists raw, h1.
        split; [reflexivity|]. split; [now apply formatAll_resolution|].
        cbn. destruct keeps_pageInfo; reflexivity.
      * unfold rethrow. run_async. discriminate.
    + rewrite bind_run. destruct (formatAll_missing_page w h1) as [e ->].
      unfold rethrow. run_async. discriminate.
    + unfold rethrow. run_async. discriminate.
  - intros raw h1 fbs h2 ER F. rewrite bind_run. cbn [emit]. unfold try_catch.
    rewrite bind_run, ER, bind_run.
    apply formatAll_resolution in F. rewrite F. unfold ret. cbn.
    destruct keeps_pageInfo; reflexivity.
Qed.
End Aggregate.

Lemma getFormattedBetsFromIds_aggregates w betIds h :
  aggregates w "Running getFormattedBetsFromIds..." false
    (getRawBetsFromIds w betIds) (getFormattedBetsFromIds w betIds) h.
Proof.
  exact (aggregate_spec w _ "Failed to get formatted bets from bet ids" false _ h).
Qed.

Lemma getRecentFormattedBets_aggregates w numBets page h :
  aggregates w "Running getRecentFormattedBets..." true
    (getRecentRawBets w numBets page) (getRecentFormattedBets w numBets page) h.
Proof.
  exact (aggregate_spec w _ "Failed to get recent formatted bets" true _ h).
Qed.

Lemma getUserFormattedBets_aggregates w user numBets page h :
  aggregates w "Running getUserFormattedBets..." true
    (getUserRawBets w user numBets page)
    (getUserFormattedBets w user numBets page) h.
Proof.
  exact (aggregate_spec w _ "Failed to get formatted bet details for a user" true _ h).
Qed.




Example getRecentFormattedBets_page :
  exists fb5 fb6,
    snd (getRecentFormattedBets (world 200 settled_reads) (number_literal 6)
           (Some {| afterCursor := Some "c0"; beforeCursor := None |}) []) =
    Resolved {| FormattedBets.items := [fb5; fb6];
                FormattedBets.pageInfo := Some page1 |} /\
    FormattedBet.betId fb5 = number_literal 5 /\
    FormattedBet.betId fb6 = number_literal 6.
Proof. do 2 eexists. vm_compute. repeat split. Qed.


(** ** Pagination *)

Lemma fetch_calls_app t u :
  fetch_calls (t ++ u) = (fetch_calls t ++ fetch_calls u)%list.
Proof.
  induction t as [|[] t IH]; cbn; try assumption; [reflexivity|].
  now rewrite IH.
Qed.

Lemma formatBet_sends_nothing w rawBet h :
  fetch_calls (fst (formatBet w rawBet h)) = fetch_calls h.
Proof.
  destruct (formatBet_trace w rawBet h) as (tail & E & _).
  assert (T : fetch_calls tail = []).
  { revert E. unfold formatBet, formatBet_issued, formatBet_started, Promise_all4.
    run_async.
    destruct (getPreferredAlias w _ (RawBet.creator rawBet)) as [a1|e1];
    destruct (getPreferredAlias w _ (RawBet.participant rawBet)) as [a2|e2];
    destruct (getPreferredAlias w _ (RawBet.judge rawBet)) as [a3|e3];
    destruct (readContracts w _ _ _) as [[[st wi] jr]|e4]; cbn;
    try (intros E; apply app_inv_head in E; subst tail; reflexivity).
    destruct (BigInt (RawBet.amount rawBet)) as [n|e]; cbn; intros E.
    - rewrite <- (app_nil_r (_ ++ [readContracts_call _ _])%list) in E at 1.
      apply app_inv_head in E. now subst tail.
    - apply app_inv_head in E. now subst tail. }
  rewrite E, fetch_calls_app, T, app_nil_r.
  unfold formatBet_issued, formatBet_started.
  rewrite !fetch_calls_app. cbn. now rewrite !app_nil_r.
Qed.

Lemma start_each_sends_nothing w rawBets h :
  fetch_calls (fst (start_each (formatBet w) rawBets h)) = fetch_calls h.
Proof.
  revert h. induction rawBets as [|rawBet rawBets IH]; intros h; [reflexivity|].
  cbn [start_each]. rewrite bind_run. unfold start at 1.
  destruct (formatBet w rawBet h) as [h1 o] eqn:E1. rewrite bind_run.
  destruct (start_each_resolves w rawBets h1) as [ps E]. rewrite E.
  unfold ret. cbn [fst]. rewrite IH.
  now rewrite <- (formatBet_sends_nothing w rawBet h), E1.
Qed.

Lemma formatAll_sends_nothing w rawBets h :
  fetch_calls (fst (formatAll w rawBets h)) = fetch_calls h.
Proof.
  destruct rawBets as [raw|]; [|reflexivity].
  unfold formatAll. rewrite bind_run. unfold lift. cbn [property_of].
  rewrite bind_run.
  destruct (start_each_resolves w (RawBets.items raw) h) as [ps E]. rewrite E.
  unfold Promise_all. rewrite <- (start_each_sends_nothing w (RawBets.items raw) h).
  destruct (resolutions ps); reflexivity.
Qed.

(** A raw fetcher whose query generator returns [q] sends one request, the
    POST of [q] to the API. *)
Lemma raw_fetcher_sends {A} w name msg prop q (select : GqlData -> A) h :
  fetch_calls (fst (raw_fetcher w name msg prop (Resolved q) select h)) =
  (fetch_calls h ++ [(BET_API_URL w, post_query q)])%list.
Proof.
  run_async.
  destruct (fetch w _ _ _) as [res|e]; cbn.
  - destruct (json res) as [b|e]; cbn.
    + destruct (data b); cbn; rewrite !fetch_calls_app; cbn;
        now rewrite ?app_nil_r.
    + rewrite !fetch_calls_app; cbn; now rewrite ?app_nil_r.
  - rewrite !fetch_calls_app; cbn; now rewrite ?app_nil_r.
Qed.

Lemma aggregate_fetcher_sends w name msg keeps run_raw h :
  fetch_calls (fst (aggregate_fetcher w name msg keeps run_raw h)) =
  fetch_calls (fst (run_raw (h ++ [console_log name])%list)).
Proof.
  unfold aggregate_fetcher. rewrite bind_run. cbn [emit]. unfold try_catch.
  rewrite bind_run.
  destruct (run_raw (h ++ [console_log name])%list) as [h1 [rawBets|e]].
  - rewrite bind_run.
    pose proof (formatAll_sends_nothing w rawBets h1) as F.
    destruct (formatAll w rawBets h1) as [h2 [vs|e]]; cbn [fst] in *.
    + exact F.
    + unfold rethrow. run_async. rewrite fetch_calls_app, F. cbn.
      now rewrite app_nil_r.
  - unfold rethrow. run_async. rewrite fetch_calls_app. cbn.
    now rewrite app_nil_r.
Qed.

(** C2, as the code has it. [getRecentFormattedBets] and
    [getUserFormattedBets] return the [pageInfo] of the raw page unchanged;
    [getFormattedBetsFromIds], which takes no page, returns no [pageInfo].
    [getRecentFormattedBets(numBets, page)] hands [page], cursor included, to
    the query generator and sends the query it returns, in one request. *)
Theorem pageInfo_passes_through :
  forall (w : World) (h : list Event),
    (forall numBets page fbs h',
       getRecentFormattedBets w numBets page h = (h', Resolved fbs) ->
       exists raw h1,
         getRecentRawBets w numBets page
           (h ++ [console_log "Running getRecentFormattedBets..."])%list =
           (h1, Resolved (Some raw)) /\
         FormattedBets.pageInfo fbs = RawBets.pageInfo raw) /\
    (forall user numBets page fbs h',
       getUserFormattedBets w user numBets page h = (h', Resolved fbs) ->
       exists raw h1,
         getUserRawBets w user numBets page
           (h ++ [console_log "Running getUserFormattedBets..."])%list =
           (h1, Resolved (Some raw)) /\
         FormattedBets.pageInfo fbs = RawBets.pageInfo raw) /\
    (forall betIds fbs h',
       getFormattedBetsFromIds w betIds h = (h', Resolved fbs) ->
       FormattedBets.pageInfo fbs = None) /\
    (forall numBets c q,
       generateRecentBetsQuery w numBets
         (Some {| afterCursor := Some c; beforeCursor := None |}) = Resolved q ->
       fetch_calls
         (fst (getRecentFormattedBets w numBets
                 (Some {| afterCursor := Some c; beforeCursor := None |}) h)) =
       (fetch_calls h ++ [(BET_API_URL w, post_query q)])%list).
Proof.
  intros w h. refine (conj _ (conj _ (conj _ _))).
  - intros numBets page fbs h' E.
    destruct (proj1 (getRecentFormattedBets_aggregates w numBets page h) fbs h' E)
      as (raw & h1 & ER & _ & P). eauto.
  - intros user numBets page fbs h' E.
    destruct (proj1 (getUserFormattedBets_aggregates w user numBets page h) fbs h' E)
      as (raw & h1 & ER & _ & P). eauto.
  - intros betIds fbs h' E.
    destruct (proj1 (getFormattedBetsFromIds_aggregates w betIds h) fbs h' E)
      as (raw & h1 & ER & _ & P). exact P.
  - intros numBets c q G.
    change (getRecentFormattedBets w numBets
              (Some {| afterCursor := Some c; beforeCursor := None |}))
      with (aggregate_fetcher w "Running getRecentFormattedBets..."
              "Failed to get recent formatted bets" true
              (getRecentRawBets w numBets
                 (Some {| afterCursor := Some c; beforeCursor := None |}))).
    rewrite aggregate_fetcher_sends, getRecentRawBets_shape, G, raw_fetcher_sends.
    rewrite fetch_calls_app. cbn. now rewrite app_nil_r.
Qed.

Lemma pageInfo_passes_through_witness :
  fetch_calls
    (fst (getRecentFormattedBets (world 200 settled_reads) (number_literal 6)
            (Some {| afterCursor := Some "c0"; beforeCursor := None |}) [])) =
  [("https://api.example/graphql", post_query "recent after c0")].
Proof.
  apply (proj2 (proj2 (proj2 (pageInfo_passes_through (world 200 settled_reads) [])))
           (number_literal 6) "c0" "recent after c0").
  reflexivity.
Defined.

(** C2, as stated, fails: in the world [world 200 settled_reads] the raw page
    fetched by [getRawBetsFromIds] has the page information [page1], and
    [getFormattedBetsFromIds] resolves with an object without [pageInfo]. *)
Lemma getFormattedBetsFromIds_pageInfo_counterexample :
  ~ (forall (w : World) (betIds : list JsNumber) (h h1 h' : list Event)
            (raw : RawBets) (fbs : FormattedBets),
       getRawBetsFromIds w betIds
         (h ++ [console_log "Running getFormattedBetsFromIds..."])%list =
         (h1, Resolved (Some raw)) ->
       getFormattedBetsFromIds w betIds h = (h', Resolved fbs) ->
       FormattedBets.pageInfo fbs = RawBets.pageInfo raw).
Proof.
  intros claim.
  pose (w := world 200 settled_reads).
  pose (ids := [number_literal 5; number_literal 6]).
  destruct (getFormattedBetsFromIds w ids []) as [h' [fbs|e]] eqn:E;
    [|vm_compute in E; discriminate].
  assert (P : FormattedBets.pageInfo fbs = None).
  { destruct (proj1 (getFormattedBetsFromIds_aggregates w ids []) fbs h' E)
      as (raw & h1 & _ & _ & P). exact P. }
  specialize (claim w ids [] _ h' {| RawBets.items := [bet5; bet6];
                                     RawBets.pageInfo := Some page1 |} fbs
                    eq_refl E).
  rewrite P in claim. discriminate.
Qed.

(** ** The amount *)



(** The conversion to a number rounds: 1.5 is a number, one millionth is
    not, and the number of 0.000001 is slightly below it. *)
Example amount_one_and_a_half :
  number_to_Q (Number (formatUnits 1500000 6)) =
    Some (6755399441055744 # 4503599627370496) /\
  (6755399441055744 # 4503599627370496 == 1500000 # 1000000)%Q.
Proof. split; vm_compute; reflexivity. Qed.

Example amount_one_millionth :
  number_to_Q (Number (formatUnits 1 6)) =
    Some (4722366482869645 # 4722366482869645213696) /\
  (4722366482869645 # 4722366482869645213696 < 1 # 1000000)%Q.
Proof. split; vm_compute; reflexivity. Qed.

(* ================================================================== *)
(** * Further properties *)
(* ================================================================== *)

(** ** Requests and console of the raw fetchers *)


Lemma read_calls_app t u :
  read_calls (t ++ u) = (read_calls t ++ read_calls u)%list.
Proof.
  induction t as [|[] t IH]; cbn; try assumption; [reflexivity|].
  now rewrite IH.
Qed.

Lemma alias_calls_app t u :
  alias_calls (t ++ u) = (alias_calls t ++ alias_calls u)%list.
Proof.
  induction t as [|[] t IH]; cbn; try assumption; [reflexivity|].
  now rewrite IH.
Qed.



Example getRawBetFromId_bad_gateway_trace :
  getRawBetFromId (world_api (Resolved bad_gateway) pending_reads)
    (number_literal 5) [] =
  ([console_log "Running getRawBetFromId...";
    console_log "Running queryGqlApi...";
    fetch_call "https://api.example/graphql" (post_query "bet");
    console_error
      "Failed to get raw bet details from bet id: SyntaxError: Unexpected token < in JSON at position 0"],
   Rejected (new_Error "Failed to get raw bet details from bet id")).
Proof. reflexivity. Qed.


Lemma raw_fetcher_returns_property {A} w name msg prop query
    (select : GqlData -> A) h :
  returns_property (raw_fetcher w name msg prop query select h)
    query (answer_at w h name) select.
Proof.
  intros q res b d Hq Ha Hj Hd.
  now rewrite raw_fetcher_outcome, Hq, Ha, Hj, Hd.
Qed.

(** X2. When the parsed body has [data], a raw fetcher resolves with the
    property it reads from it, [data.bet] or [data.bets], as it is: with
    [undefined] when the property is missing, not with an error. *)
Theorem raw_fetchers_return_property :
  forall (w : World) (h : list Event),
    (forall betId,
       returns_property (getRawBetFromId w betId h)
         (generateBetQuery w betId)
         (answer_at w h "Running getRawBetFromId...") bet) /\
    (forall betIds,
       returns_property (getRawBetsFromIds w betIds h)
         (generateBetsQuery w betIds)
         (answer_at w h "Running getRawBetsFromIds...") bets) /\
    (forall numBets page,
       returns_property (getRecentRawBets w numBets page h)
         (generateRecentBetsQuery w numBets page)
         (answer_at w h "Running getRecentRawBets...") bets) /\
    (forall user numBets page,
       returns_property (getUserRawBets w user numBets page h)
         (generateUserBetsQuery w user numBets page)
         (answer_at w h "Running getRecentRawBets...") bets).
Proof.
  intros w h. refine (conj _ (conj _ (conj _ _))); intros.
  - rewrite getRawBetFromId_shape. apply raw_fetcher_returns_property.
  - rewrite getRawBetsFromIds_shape. apply raw_fetcher_returns_property.
  - rewrite getRecentRawBets_shape. apply raw_fetcher_returns_property.
  - rewrite getUserRawBets_shape. apply raw_fetcher_returns_property.
Qed.

Lemma raw_fetchers_return_property_witness :
  snd (getRawBetFromId (world_api (Resolved empty_data) pending_reads)
         (number_literal 5) []) = Resolved None.
Proof.
  apply (proj1 (raw_fetchers_return_property
                  (world_api (Resolved empty_data) pending_reads) [])
               (number_literal 5) "bet" empty_data
               {| data := Some {| bet := None; bets := None |} |}
               {| bet := None; bets := None |});
    reflexivity.
Defined.

(** ** What [formatBet] checks, and what it does not *)



Lemma formatBet_trace_tail :
  forall (w : World) (rawBet : RawBet) (h : list Event),
    exists tail,
      fst (formatBet w rawBet h) = (formatBet_issued rawBet h ++ tail)%list /\
      (is_resolved (snd (formatBet w rawBet h)) -> tail = []) /\
      (is_rejected (snd (formatBet w rawBet h)) ->
       exists text,
         tail = [console_error ("Failed to format bets from raw bets: " ++ text)]).
Proof.
  intros w rawBet h.
  unfold formatBet, formatBet_issued, formatBet_started, Promise_all4.
  run_async.
  destruct (getPreferredAlias w _ (RawBet.creator rawBet)) as [a1|e1];
  destruct (getPreferredAlias w _ (RawBet.participant rawBet)) as [a2|e2];
  destruct (getPreferredAlias w _ (RawBet.judge rawBet)) as [a3|e3];
  destruct (readContracts w _ _ _) as [[[st wi] jr]|e4]; cbn [fst snd];
  try (eexists; split; [reflexivity|];
       split; [intros [fb H]; discriminate|];
       intros _; eexists; reflexivity).
  destruct (BigInt (RawBet.amount rawBet)) as [n|e]; cbn [fst snd].
  - exists []. split; [now rewrite app_nil_r|]. split; [reflexivity|].
    intros [e H]; discriminate.
  - eexists; split; [reflexivity|].
    split; [intros [fb H]; discriminate|].
    intros _; eexists; reflexivity.
Qed.



(** ** Times and amounts out of the ordinary *)





Lemma StringToBigInt_negative s n :
  digits_literal 10 s = Some n -> StringToBigInt (String "-" s) = Some (- n).
Proof.
  intros H. destruct (digits_literal_inv _ _ H) as (E & D & V & _).
  unfold StringToBigInt.
  assert (W : all_chars (fun c => negb (is_white_space c)) (String "-" s) = true).
  { cbn [all_chars]. now rewrite (digits_have_no_white_space s D). }
  rewrite (trim_no_white_space _ W). cbn. now rewrite H.
Qed.

(** X6. [formatBet] does not check the sign of the amount: for a raw amount
    that is a minus sign and the decimal digits of [n], and calls that
    resolve, it resolves and [bigintAmount] is [-n]. *)
Theorem formatBet_negative_amount :
  forall (w : World) (rawBet : RawBet) (h : list Event) (s : string) (n : Z),
    RawBet.amount rawBet = String "-" s ->
    digits_literal 10 s = Some n ->
    is_resolved (creator_lookup w rawBet h) ->
    is_resolved (participant_lookup w rawBet h) ->
    is_resolved (judge_lookup w rawBet h) ->
    is_resolved (chain_reads w rawBet h) ->
    exists fb,
      snd (formatBet w rawBet h) = Resolved fb /\
      FormattedBet.bigintAmount fb = - n.
Proof.
  intros w rawBet h s n Ha Hn [a1 H1] [a2 H2] [a3 H3] [[[st wi] jr] H4].
  assert (B : BigInt (RawBet.amount rawBet) = Resolved (- n)).
  { unfold BigInt. now rewrite Ha, (StringToBigInt_negative s n Hn). }
  rewrite formatBet_outcome, H1, H2, H3, H4, B.
  eexists. split; reflexivity.
Qed.

Lemma formatBet_negative_amount_witness :
  exists fb,
    snd (formatBet (world 200 pending_reads) (with_amount "-2500000" bet5) []) =
      Resolved fb /\
    FormattedBet.bigintAmount fb = - 2500000.
Proof.
  apply (formatBet_negative_amount (world 200 pending_reads)
           (with_amount "-2500000" bet5) [] "2500000" 2500000);
    try reflexivity; eexists; reflexivity.
Defined.

(** ** Whole amounts and whole ids *)

Lemma digit_zero c : digit_value 10 c = Some 0 -> c = "0"%char.
Proof. each_char c; vm_compute; congruence. Qed.

Lemma strip_trailing_zeros_of_zero s :
  digits_value 10 s = Some 0 -> strip_trailing_zeros s = EmptyString.
Proof.
  induction s as [|c r IH]; [reflexivity|].
  unfold digits_value. cbn [digits_value_acc strip_trailing_zeros].
  destruct (digit_value 10 c) as [d|] eqn:Hd; [|discriminate].
  intros H. pose proof (digit_value_range _ _ Hd) as Rd.
  destruct (digits_value_acc_shift _ _ _ H) as (v0 & V0 & E0 & R0).
  assert (P : 0 < 10 ^ Z.of_nat (String.length r))
    by (apply Z.pow_pos_nonneg; lia).
  assert (d = 0) by nia. subst d.
  assert (v0 = 0) by nia. subst v0.
  rewrite (digit_zero c Hd), (IH V0). reflexivity.
Qed.

(** The text of [formatUnits]: an integer part and, after a point, the
    fraction without its trailing zeros, if anything is left of it. *)
Lemma formatUnits_shape n decimals :
  0 <= n ->
  exists ip fraction vi vf,
    is_empty ip = false /\ all_chars (is_digit 10) ip = true /\
    digits_value 10 ip = Some vi /\
    digits_value 10 fraction = Some vf /\
    0 <= vf < 10 ^ Z.of_nat decimals /\
    n = vi * 10 ^ Z.of_nat decimals + vf /\
    formatUnits n decimals =
      ip ++ (if is_empty (strip_trailing_zeros fraction) then EmptyString
             else String "." (strip_trailing_zeros fraction)).
Proof.
  intros P. destruct (nat_toString_spec n P) as (Ne & D & V).
  unfold formatUnits, BigInt_toString.
  replace (n <? 0) with false by (symmetry; apply Z.ltb_ge; lia).
  assert (Hneg : String.prefix "-" (nat_toString n) = false).
  { destruct (nat_toString n) as [|c r]; [discriminate|].
    cbn [all_chars] in D. apply andb_true_iff in D as [Dc _].
    each_char c; try discriminate Dc; reflexivity. }
  rewrite Hneg. cbn [append].
  set (padded := padStart (nat_toString n) decimals).
  destruct (repeat_zero_spec (decimals - String.length (nat_toString n)))
    as (Dz & Vz & Lz).
  assert (Dp : all_chars (is_digit 10) padded = true).
  { unfold padded, padStart. now rewrite all_chars_app, Dz, D. }
  assert (Vp : digits_value 10 padded = Some n).
  { unfold padded, padStart. rewrite (digits_value_app _ _ _ _ Vz V). f_equal; lia. }
  assert (Lp : (decimals <= String.length padded)%nat).
  { unfold padded, padStart. rewrite length_append, Lz. lia. }
  destruct (slice_split padded (String.length padded - decimals) ltac:(lia))
    as [E L].
  set (integer := slice_to padded (String.length padded - decimals)) in *.
  set (fraction := slice_from padded (String.length padded - decimals)) in *.
  assert (Lf : String.length fraction = decimals).
  { pose proof (f_equal String.length E) as EL. rewrite length_append, L in EL. lia. }
  rewrite <- E, all_chars_app in Dp. apply andb_true_iff in Dp as [Di Df].
  destruct (digits_value_total _ Di) as [vi Vi].
  destruct (digits_value_total _ Df) as [vf Vf].
  rewrite <- E, (digits_value_app _ _ _ _ Vi Vf), Lf in Vp.
  injection Vp as Hn.
  destruct (digits_value_acc_shift _ _ _ Vf) as (vf' & Vf' & Ef & Rf).
  assert (vf' = vf) by congruence. subst vf'.
  rewrite Lf in Rf.
  exists (if is_empty integer then "0" else integer), fraction, vi, vf.
  repeat split; try lia; trivial.
  - destruct integer; reflexivity.
  - destruct integer; [reflexivity|exact Di].
  - destruct integer as [|c r]; [|exact Vi].
    unfold digits_value in Vi. cbn in Vi. injection Vi as <-. reflexivity.
Qed.

(** An amount of [k * 10^decimals] units is written as the integer [k]. *)
Lemma formatUnits_whole k decimals :
  0 <= k ->
  StringNumericLiteral_MV (formatUnits (k * 10 ^ Z.of_nat decimals) decimals) =
  Some (MVDecimal false k 0).
Proof.
  intros P.
  assert (Pw : 0 < 10 ^ Z.of_nat decimals) by (apply Z.pow_pos_nonneg; lia).
  destruct (formatUnits_shape (k * 10 ^ Z.of_nat decimals) decimals ltac:(nia))
    as (ip & fraction & vi & vf & Ni & Di & Vi & Vf & Rf & Hn & ->).
  assert (vi = k).
  { set (X := 10 ^ Z.of_nat decimals) in *.
    destruct (Z.lt_trichotomy vi k) as [C|[C|C]]; trivial; nia. }
  subst vi. assert (vf = 0) by lia. subst vf.
  rewrite (strip_trailing_zeros_of_zero _ Vf). cbn [is_empty].
  rewrite append_empty_r. apply Number_decimal_MV.
  unfold digits_literal. now rewrite Ni.
Qed.

Lemma number_to_Q_whole m :
  Z.pos (digits2_pos m) <= 53 ->
  exists q, number_to_Q (whole_number m) = Some q /\ (q == inject_Z (Z.pos m))%Q.
Proof.
  intros D. unfold number_to_Q, whole_number.
  pose proof (whole_number_mantissa m D) as M. unfold prec in *.
  destruct (0 <=? Z.pos (digits2_pos m) - 53) eqn:E.
  - apply Z.leb_le in E. eexists. split; [reflexivity|].
    unfold Qeq, inject_Z. cbn [Qnum Qden]. rewrite M.
    replace (53 - Z.pos (digits2_pos m)) with 0 by lia.
    replace (Z.pos (digits2_pos m) - 53) with 0 by lia.
    cbn [Z.pow]. lia.
  - apply Z.leb_gt in E. eexists. split; [reflexivity|].
    unfold Qeq, inject_Z. cbn [Qnum Qden]. rewrite M.
    replace (- (Z.pos (digits2_pos m) - 53)) with (53 - Z.pos (digits2_pos m)) by lia.
    rewrite Z2Pos.id by (apply Z.pow_pos_nonneg; lia). lia.
Qed.

(** A whole number below [2^53] is a number: the literal is exact. *)
Lemma number_literal_exact n :
  0 <= n < 2 ^ 53 ->
  truncate (number_literal n) = Some n /\
  exists q, number_to_Q (number_literal n) = Some q /\ (q == inject_Z n)%Q.
Proof.
  intros [P U]. destruct n as [|m|m]; [|clear P|lia].
  - split; [reflexivity|]. eexists. split; reflexivity.
  - unfold number_literal.
    rewrite (binary_normalize_whole m (digits2_pos_below m U)).
    split; [apply truncate_whole, digits2_pos_below, U|].
    apply number_to_Q_whole, digits2_pos_below, U.
Qed.

(** X7. An amount of whole tokens is exact: for a raw amount that is
    [k * 10^6] in decimal text, with [k] below [2^53], the amount of the
    record is the number [k] itself. *)
Theorem formatBet_whole_amount :
  forall (w : World) (rawBet : RawBet) (h : list Event) (fb : FormattedBet) (k : Z),
    0 <= k < 2 ^ 53 ->
    digits_literal 10 (RawBet.amount rawBet) = Some (k * 1000000) ->
    snd (formatBet w rawBet h) = Resolved fb ->
    FormattedBet.amount fb = number_literal k /\
    truncate (FormattedBet.amount fb) = Some k /\
    exists q, number_to_Q (FormattedBet.amount fb) = Some q /\ (q == inject_Z k)%Q.
Proof.
  intros w rawBet h fb k R Hn Hfb.
  destruct (formatBet_resolution w rawBet h fb Hfb)
    as (a1 & a2 & a3 & st & wi & jr & m & _ & _ & _ & _ & Hm & _ & Ha & _).
  rewrite (BigInt_decimal _ _ Hn) in Hm. injection Hm as <-.
  assert (E : FormattedBet.amount fb = number_literal k).
  { rewrite Ha. unfold Number.
    change 1000000 with (10 ^ Z.of_nat 6).
    rewrite (formatUnits_whole k 6) by lia.
    unfold number_of_MV, number_literal.
    destruct k as [|p|p]; [reflexivity| |lia].
    cbn [Z.leb Z.compare]. now rewrite Z.pow_0_r, Z.mul_1_r. }
  rewrite E. split; [reflexivity|]. now apply number_literal_exact.
Qed.

Lemma formatBet_whole_amount_witness :
  exists fb,
    snd (formatBet (world 200 pending_reads) (with_amount "25000000" bet5) []) =
      Resolved fb /\
    FormattedBet.amount fb = number_literal 25.
Proof.
  destruct (formatBet (world 200 pending_reads) (with_amount "25000000" bet5) [])
    as [t [fb|e]] eqn:E; [|vm_compute in E; discriminate].
  exists fb. split; [reflexivity|].
  apply (proj1 (formatBet_whole_amount (world 200 pending_reads)
                  (with_amount "25000000" bet5) [] fb 25
                  ltac:(change (2 ^ 53) with 9007199254740992; lia)
                  eq_refl (f_equal snd E))).
Defined.

(** X8. The id is exact below [2^53]: for a raw id that is [n] in decimal
    text, [betId] is the number [n] itself. *)
Theorem formatBet_betId_exact :
  forall (w : World) (rawBet : RawBet) (h : list Event) (fb : FormattedBet) (n : Z),
    digits_literal 10 (RawBet.id rawBet) = Some n ->
    n < 2 ^ 53 ->
    snd (formatBet w rawBet h) = Resolved fb ->
    FormattedBet.betId fb = number_literal n /\
    truncate (FormattedBet.betId fb) = Some n /\
    exists q, number_to_Q (FormattedBet.betId fb) = Some q /\ (q == inject_Z n)%Q.
Proof.
  intros w rawBet h fb n Hn U Hfb.
  destruct (formatBet_resolution w rawBet h fb Hfb)
    as (a1 & a2 & a3 & st & wi & jr & m & _ & _ & _ & _ & _ & Hb & _).
  destruct (digits_literal_inv _ _ Hn) as (_ & _ & _ & P).
  rewrite Hb, (Number_decimal _ _ Hn).
  split; [reflexivity|]. apply number_literal_exact. lia.
Qed.

Lemma formatBet_betId_exact_witness :
  FormattedBet.betId bet5_pending = number_literal 5 /\
  truncate (FormattedBet.betId bet5_pending) = Some 5 /\
  exists q, number_to_Q (FormattedBet.betId bet5_pending) = Some q /\
            (q == inject_Z 5)%Q.
Proof.
  apply (formatBet_betId_exact (world 200 pending_reads) bet5 [] bet5_pending 5).
  - reflexivity.
  - change (2 ^ 53) with 9007199254740992. lia.
  - vm_compute. reflexivity.
Defined.

(** ** Pages are all or nothing *)

Lemma aggregate_fetcher_rejection w name msg keeps run_raw h e :
  snd (aggregate_fetcher w name msg keeps run_raw h) = Rejected e ->
  e = new_Error msg.
Proof.
  unfold aggregate_fetcher. rewrite bind_run. cbn [emit]. unfold try_catch.
  rewrite bind_run.
  destruct (run_raw (h ++ [console_log name])%list) as [h1 [rawBets|e1]].
  - rewrite bind_run.
    destruct (formatAll w rawBets h1) as [h2 [vs|e2]].
    + unfold ret. cbn. discriminate.
    + unfold rethrow. run_async. congruence.
  - unfold rethrow. run_async. congruence.
Qed.

Lemma aggregate_fetcher_raw_rejects w name msg keeps run_raw h h1 e :
  run_raw (h ++ [console_log name])%list = (h1, Rejected e) ->
  snd (aggregate_fetcher w name msg keeps run_raw h) = Rejected (new_Error msg).
Proof.
  intros ER. unfold aggregate_fetcher. rewrite bind_run. cbn [emit].
  unfold try_catch. rewrite bind_run, ER. unfold rethrow. run_async. reflexivity.
Qed.

Lemma aggregate_fetcher_formatAll_rejects w name msg keeps run_raw h h1 rawBets h2 e :
  run_raw (h ++ [console_log name])%list = (h1, Resolved rawBets) ->
  formatAll w rawBets h1 = (h2, Rejected e) ->
  aggregate_fetcher w name msg keeps run_raw h =
  ((h2 ++ [console_error (msg ++ ": " ++ error_toString e)])%list,
   Rejected (new_Error msg)).
Proof.
  intros ER EF. unfold aggregate_fetcher. rewrite bind_run. cbn [emit].
  unfold try_catch. rewrite bind_run, ER, bind_run, EF.
  unfold rethrow. run_async. reflexivity.
Qed.

Lemma start_each_item_fails w rawBets h :
  an_item_fails w rawBets h ->
  exists ps,
    start_each (formatBet w) rawBets h =
      (fst (start_each (formatBet w) rawBets h), Resolved ps) /\
    resolutions ps = None.
Proof.
  intros (before & rawBet & after & fbs & h1 & e & -> & F & R).
  induction F as [h|rb rbs fb fbs h h1 h2 H1 _ IH].
  - cbn [app start_each]. rewrite !bind_run. unfold start at 1 2.
    destruct (formatBet w rawBet h) as [hk o] eqn:E. cbn [snd] in R. subst o.
    rewrite !bind_run.
    destruct (start_each_resolves w after hk) as [ps E']. rewrite E'.
    unfold ret. cbn [fst]. eexists. split; reflexivity.
  - cbn [app start_each]. rewrite !bind_run. unfold start at 1 2. rewrite H1.
    rewrite !bind_run.
    destruct (IH R) as (ps & E' & N). rewrite E'.
    unfold ret. cbn [fst]. eexists. split; [reflexivity|].
    cbn. now rewrite N.
Qed.

Lemma formatAll_item_fails w raw h :
  an_item_fails w (RawBets.items raw) h ->
  exists h2 e, formatAll w (Some raw) h = (h2, Rejected e).
Proof.
  intros F. destruct (start_each_item_fails w _ h F) as (ps & E & N).
  unfold formatAll. rewrite bind_run. unfold lift. cbn [property_of].
  rewrite bind_run, E. unfold Promise_all. rewrite N. eauto.
Qed.

Lemma formatBet_calls w rawBet h :
  alias_calls (fst (formatBet w rawBet h)) =
    (alias_calls h ++ [RawBet.creator rawBet; RawBet.participant rawBet;
                       RawBet.judge rawBet])%list /\
  read_calls (fst (formatBet w rawBet h)) =
    (read_calls h ++ [status_reads (RawBet.contractAddress rawBet)])%list.
Proof.
  destruct (formatBet_trace_tail w rawBet h) as (tail & E & Hres & Hrej).
  assert (T : alias_calls tail = [] /\ read_calls tail = []).
  { destruct (snd (formatBet w rawBet h)) as [fb|e].
    - rewrite Hres by (eexists; reflexivity). split; reflexivity.
    - destruct Hrej as [text ->]; [eexists; reflexivity|]. split; reflexivity. }
  destruct T as [Ta Tr].
  rewrite E, alias_calls_app, read_calls_app, Ta, Tr, !app_nil_r.
  unfold formatBet_issued, formatBet_started.
  rewrite !alias_calls_app, !read_calls_app. cbn.
  rewrite !app_nil_r, <- !app_assoc. split; reflexivity.
Qed.

Lemma start_each_trace_cons w rawBet rawBets h :
  fst (start_each (formatBet w) (rawBet :: rawBets) h) =
  fst (start_each (formatBet w) rawBets (fst (formatBet w rawBet h))).
Proof.
  cbn [start_each]. rewrite bind_run. unfold start at 1.
  destruct (formatBet w rawBet h) as [h1 o]. rewrite bind_run.
  destruct (start_each_resolves w rawBets h1) as [ps E]. rewrite E.
  reflexivity.
Qed.

Lemma start_each_calls w rawBets :
  forall h,
    alias_calls (fst (start_each (formatBet w) rawBets h)) =
      (alias_calls h ++ alias_calls_of rawBets)%list /\
    read_calls (fst (start_each (formatBet w) rawBets h)) =
      (read_calls h ++ read_calls_of rawBets)%list.
Proof.
  induction rawBets as [|rawBet rawBets IH]; intros h.
  - cbn. now rewrite !app_nil_r.
  - rewrite start_each_trace_cons.
    destruct (formatBet_calls w rawBet h) as [Ca Cr].
    destruct (IH (fst (formatBet w rawBet h))) as [Ia Ir].
    rewrite Ia, Ir, Ca, Cr.
    unfold alias_calls_of, read_calls_of. cbn [flat_map map].
    rewrite <- !app_assoc. split; reflexivity.
Qed.

Lemma formatAll_calls w raw h :
  alias_calls (fst (formatAll w (Some raw) h)) =
    (alias_calls h ++ alias_calls_of (RawBets.items raw))%list /\
  read_calls (fst (formatAll w (Some raw) h)) =
    (read_calls h ++ read_calls_of (RawBets.items raw))%list.
Proof.
  unfold formatAll. rewrite bind_run. unfold lift. cbn [property_of].
  rewrite bind_run.
  destruct (start_each_calls w (RawBets.items raw) h) as [Ca Cr].
  destruct (start_each_resolves w (RawBets.items raw) h) as [ps E].
  rewrite E in *. cbn [fst] in Ca, Cr. unfold Promise_all.
  destruct (resolutions ps); cbn [fst]; split; assumption.
Qed.

Lemma aggregate_fetcher_calls w name msg keeps run_raw h h1 raw :
  run_raw (h ++ [console_log name])%list = (h1, Resolved (Some raw)) ->
  alias_calls (fst (aggregate_fetcher w name msg keeps run_raw h)) =
    (alias_calls h1 ++ alias_calls_of (RawBets.items raw))%list /\
  read_calls (fst (aggregate_fetcher w name msg keeps run_raw h)) =
    (read_calls h1 ++ read_calls_of (RawBets.items raw))%list.
Proof.
  intros ER. destruct (formatAll_calls w raw h1) as [Ca Cr].
  destruct (formatAll w (Some raw) h1) as [h2 [vs|e]] eqn:EF; cbn [fst] in Ca, Cr.
  - unfold aggregate_fetcher. rewrite bind_run. cbn [emit]. unfold try_catch.
    rewrite bind_run, ER, bind_run, EF. unfold ret. cbn [fst].
    split; assumption.
  - rewrite (aggregate_fetcher_formatAll_rejects w name msg keeps run_raw
               h h1 (Some raw) h2 e ER EF).
    cbn [fst]. rewrite alias_calls_app, read_calls_app, Ca, Cr. cbn.
    now rewrite !app_nil_r.
Qed.

Lemma aggregate_fetcher_all_or_nothing w name msg keeps run_raw h :
  page_all_or_nothing w name msg run_raw
    (aggregate_fetcher w name msg keeps run_raw) h.
Proof.
  refine (conj _ (conj _ (conj _ (conj _ _)))).
  - intros e. apply aggregate_fetcher_rejection.
  - intros h1 e. apply aggregate_fetcher_raw_rejects.
  - intros h1 ER. destruct (formatAll_missing_page w h1) as [e EF].
    now rewrite (aggregate_fetcher_formatAll_rejects w name msg keeps run_raw
                   h h1 None h1 e ER EF).
  - intros raw h1 ER F.
    destruct (formatAll_item_fails w raw h1 F) as (h2 & e & EF).
    now rewrite (aggregate_fetcher_formatAll_rejects w name msg keeps run_raw
                   h h1 (Some raw) h2 e ER EF).
  - intros raw h1. apply aggregate_fetcher_calls.
Qed.

(** X9. A page is all or nothing. Each aggregate fetcher rejects with its own
    fixed error, and with no other: when its raw fetcher rejects, when the
    raw fetcher resolves with no page, and when [formatBet] rejects on one of
    the items, whatever the other items give. The three alias lookups and the
    batch of reads of every item of the page are made all the same, in the
    order of the page. *)
Theorem pages_are_all_or_nothing :
  forall (w : World) (h : list Event),
    (forall betIds,
       page_all_or_nothing w "Running getFormattedBetsFromIds..."
         "Failed to get formatted bets from bet ids"
         (getRawBetsFromIds w betIds) (getFormattedBetsFromIds w betIds) h) /\
    (forall numBets page,
       page_all_or_nothing w "Running getRecentFormattedBets..."
         "Failed to get recent formatted bets"
         (getRecentRawBets w numBets page)
         (getRecentFormattedBets w numBets page) h) /\
    (forall user numBets page,
       page_all_or_nothing w "Running getUserFormattedBets..."
         "Failed to get formatted bet details for a user"
         (getUserRawBets w user numBets page)
         (getUserFormattedBets w user numBets page) h).
Proof.
  intros w h. refine (conj _ (conj _ _)); intros.
  - exact (aggregate_fetcher_all_or_nothing w _ _ false _ h).
  - exact (aggregate_fetcher_all_or_nothing w _ _ true _ h).
  - exact (aggregate_fetcher_all_or_nothing w _ _ true _ h).
Qed.

Lemma pages_are_all_or_nothing_witness :
  snd (getRecentFormattedBets (world_api (Resolved mixed_page) settled_reads)
         (number_literal 6) None []) =
  Rejected (new_Error "Failed to get recent formatted bets").
Proof.
  eapply (proj1 (proj2 (proj2 (proj2
            (proj1 (proj2 (pages_are_all_or_nothing
                             (world_api (Resolved mixed_page) settled_reads) []))
                   (number_literal 6) None))))).
  - vm_compute. reflexivity.
  - exists [bet5], (with_amount "1.5" bet6), [].
    do 3 eexists. split; [reflexivity|]. split.
    + econstructor; [vm_compute; reflexivity|constructor].
    + vm_compute. reflexivity.
Defined.

(** ** A single bet *)

Lemma formatBet_at_missing w h :
  snd (formatBet_at w None h) =
  Rejected (new_Error "Failed to format bets from raw bets").
Proof. reflexivity. Qed.

(** X10. [getFormattedBetFromId] puts its own message on a failure of the raw
    fetch only. Once the raw fetch has resolved it completes as
    [formatBet] does on what was fetched, since the promise of [formatBet] is
    returned without being awaited: a bet that fails to format, or a missing
    bet, rejects with the message of [formatBet]. *)
Theorem getFormattedBetFromId_composes :
  forall (w : World) (betId : JsNumber) (h : list Event),
    (forall h1 e,
       getRawBetFromId w betId
         (h ++ [console_log "Running getFormattedBetFromId..."])%list =
         (h1, Rejected e) ->
       snd (getFormattedBetFromId w betId h) =
       Rejected (new_Error "Failed to get formatted bet details from bet id")) /\
    (forall h1 rawBet,
       getRawBetFromId w betId
         (h ++ [console_log "Running getFormattedBetFromId..."])%list =
         (h1, Resolved rawBet) ->
       getFormattedBetFromId w betId h = formatBet_at w rawBet h1) /\
    (forall h1,
       getRawBetFromId w betId
         (h ++ [console_log "Running getFormattedBetFromId..."])%list =
         (h1, Resolved None) ->
       snd (getFormattedBetFromId w betId h) =
       Rejected (new_Error "Failed to format bets from raw bets")) /\
    (forall h1 rawBet e,
       getRawBetFromId w betId
         (h ++ [console_log "Running getFormattedBetFromId..."])%list =
         (h1, Resolved (Some rawBet)) ->
       snd (formatBet w rawBet h1) = Rejected e ->
       snd (getFormattedBetFromId w betId h) =
       Rejected (new_Error "Failed to format bets from raw bets")).
Proof.
  intros w betId h.
  assert (R : forall h1 rawBet,
             getRawBetFromId w betId
               (h ++ [console_log "Running getFormattedBetFromId..."])%list =
               (h1, Resolved rawBet) ->
             getFormattedBetFromId w betId h = formatBet_at w rawBet h1).
  { intros h1 rawBet ER. unfold getFormattedBetFromId.
    rewrite bind_run. cbn [emit]. rewrite bind_run. unfold try_catch.
    rewrite bind_run, ER. unfold start, lift.
    destruct (formatBet_at w rawBet h1) as [h2 o]. reflexivity. }
  refine (conj _ (conj R (conj _ _))).
  - intros h1 e ER. unfold getFormattedBetFromId.
    rewrite bind_run. cbn [emit]. rewrite bind_run. unfold try_catch.
    rewrite bind_run, ER. unfold rethrow. run_async. reflexivity.
  - intros h1 ER. rewrite (R h1 None ER). apply formatBet_at_missing.
  - intros h1 rawBet e ER F. rewrite (R h1 (Some rawBet) ER).
    cbn [formatBet_at]. rewrite F. f_equal.
    exact (formatBet_rejection w rawBet h1 e F).
Qed.

Lemma getFormattedBetFromId_composes_witness :
  snd (getFormattedBetFromId (world_api (Resolved empty_data) pending_reads)
         (number_literal 5) []) =
  Rejected (new_Error "Failed to format bets from raw bets").
Proof.
  eapply (proj1 (proj2 (proj2 (getFormattedBetFromId_composes
                                 (world_api (Resolved empty_data) pending_reads)
                                 (number_literal 5) [])))).
  vm_compute. reflexivity.
Defined.

Example getFormattedBetFromId_bad_gateway :
  snd (getFormattedBetFromId (world_api (Resolved bad_gateway) pending_reads)
         (number_literal 5) []) =
  Rejected (new_Error "Failed to get formatted bet details from bet id").
Proof. reflexivity. Qed.

Example getFormattedBetFromId_bet5 :
  snd (getFormattedBetFromId (world 200 pending_reads) (number_literal 5) []) =
  Resolved bet5_pending.
Proof. vm_compute. reflexivity. Qed.

(** ** The lists of bets *)

Lemma getRecentFormattedBets_sends w numBets page q h :
  generateRecentBetsQuery w numBets page = Resolved q ->
  fetch_calls (fst (getRecentFormattedBets w numBets page h)) =
  (fetch_calls h ++ [(BET_API_URL w, post_query q)])%list.
Proof.
  intros G.
  change (getRecentFormattedBets w numBets page)
    with (aggregate_fetcher w "Running getRecentFormattedBets..."
            "Failed to get recent formatted bets" true
            (getRecentRawBets w numBets page)).
  rewrite aggregate_fetcher_sends, getRecentRawBets_shape, G, raw_fetcher_sends.
  rewrite fetch_calls_app. cbn. now rewrite app_nil_r.
Qed.

Lemma getUserFormattedBets_sends w user numBets page q h :
  generateUserBetsQuery w user numBets page = Resolved q ->
  fetch_calls (fst (getUserFormattedBets w user numBets page h)) =
  (fetch_calls h ++ [(BET_API_URL w, post_query q)])%list.
Proof.
  intros G.
  change (getUserFormattedBets w user numBets page)
    with (aggregate_fetcher w "Running getUserFormattedBets..."
            "Failed to get formatted bet details for a user" true
            (getUserRawBets w user numBets page)).
  rewrite aggregate_fetcher_sends, getUserRawBets_shape, G, raw_fetcher_sends.
  rewrite fetch_calls_app. cbn. now rewrite app_nil_r.
Qed.

(** X11. Paging of the two lists. A page is asked for with one request, whose
    query is generated for six bets after the cursor handed in (the empty
    string when none is). The cursor [getNextPageParam] gives for the next
    page is the [endCursor] the API returned with the page, and there is none
    when the page came without [pageInfo]. *)
Theorem lists_page_by_endCursor :
  forall (w : World) (address : Address) (pageParam : option string)
         (h : list Event),
    (forall q,
       generateRecentBetsQuery w (number_literal 6)
         (BetListCard.page_after pageParam) = Resolved q ->
       fetch_calls (fst (BetListCard.RecentBetList_queryFn w pageParam h)) =
       (fetch_calls h ++ [(BET_API_URL w, post_query q)])%list) /\
    (forall fbs h',
       BetListCard.RecentBetList_queryFn w pageParam h = (h', Resolved fbs) ->
       exists raw h1,
         getRecentRawBets w (number_literal 6) (BetListCard.page_after pageParam)
           (h ++ [console_log "Running getRecentFormattedBets..."])%list =
           (h1, Resolved (Some raw)) /\
         BetListCard.getNextPageParam fbs =
           match RawBets.pageInfo raw with
           | Some info => Some (endCursor info)
           | None => None
           end) /\
    (forall q,
       generateUserBetsQuery w address (number_literal 6)
         (BetListCard.page_after pageParam) = Resolved q ->
       fetch_calls (fst (BetListCard.MyBetList_queryFn w address pageParam h)) =
       (fetch_calls h ++ [(BET_API_URL w, post_query q)])%list) /\
    (forall fbs h',
       BetListCard.MyBetList_queryFn w address pageParam h = (h', Resolved fbs) ->
       exists raw h1,
         getUserRawBets w address (number_literal 6)
           (BetListCard.page_after pageParam)
           (h ++ [console_log "Running getUserFormattedBets..."])%list =
           (h1, Resolved (Some raw)) /\
         BetListCard.getNextPageParam fbs =
           match RawBets.pageInfo raw with
           | Some info => Some (endCursor info)
           | None => None
           end).
Proof.
  intros w address pageParam h.
  unfold BetListCard.RecentBetList_queryFn, BetListCard.MyBetList_queryFn,
    BetListCard.getNextPageParam.
  refine (conj _ (conj _ (conj _ _))).
  - intros q G. now apply getRecentFormattedBets_sends.
  - intros fbs h' E.
    destruct (proj1 (getRecentFormattedBets_aggregates w _ _ h) fbs h' E)
      as (raw & h1 & ER & _ & P).
    exists raw, h1. split; [exact ER|]. now rewrite P.
  - intros q G. now apply getUserFormattedBets_sends.
  - intros fbs h' E.
    destruct (proj1 (getUserFormattedBets_aggregates w _ _ _ h) fbs h' E)
      as (raw & h1 & ER & _ & P).
    exists raw, h1. split; [exact ER|]. now rewrite P.
Qed.

Lemma lists_page_by_endCursor_witness :
  fetch_calls
    (fst (BetListCard.RecentBetList_queryFn (world 200 settled_reads)
            (Some "c2") [])) =
  [("https://api.example/graphql", post_query "recent after c2")].
Proof.
  apply (proj1 (lists_page_by_endCursor (world 200 settled_reads)
                  "0xaaaaaaaaaaaaaaaaaaaaaaaaaaaaaaaaaaaaaaaa" (Some "c2") [])
               "recent after c2").
  reflexivity.
Defined.

Example RecentBetList_next_page :
  exists fbs,
    snd (BetListCard.RecentBetList_queryFn (world 200 settled_reads) None []) =
      Resolved fbs /\
    BetListCard.getNextPageParam fbs = Some "c2".
Proof. eexists. split; vm_compute; reflexivity. Qed.

(** X12. The foot of the table offers a button that is not disabled exactly
    when there is a next page and nothing is being fetched, and that button
    reads "Load More"; whatever else it shows is a spinner or a disabled
    button. *)
Theorem footer_offers_more :
  forall (isFetching isFetchingNextPage hasNextPage : bool),
    (BetListCard.footer isFetching isFetchingNextPage hasNextPage =
       BetListCard.LoadButton "Load More" false <->
     hasNextPage = true /\ isFetching = false /\ isFetchingNextPage = false) /\
    (forall label,
       BetListCard.footer isFetching isFetchingNextPage hasNextPage =
         BetListCard.LoadButton label false ->
       label = "Load More").
Proof.
  intros [] [] []; cbn; split;
    try (split; [discriminate|intros (? & ? & ?); discriminate]);
    try (intros label H; discriminate H);
    try (intros label H; injection H as <-; reflexivity).
  split; [intros _; repeat split|reflexivity].
Qed.

Lemma footer_offers_more_witness :
  BetListCard.footer false false true = BetListCard.LoadButton "Load More" false.
Proof.
  apply (proj2 (proj1 (footer_offers_more false false true))).
  repeat split.
Defined.

Lemma status_is_true status literal :
  BetListCard.status_is status literal = true <-> status = Some literal.
Proof.
  destruct status as [s|]; cbn.
  - rewrite String.eqb_eq. split; congruence.
  - split; discriminate.
Qed.

(** X13. The cell of the status shows the ellipsis exactly when the status
    is none of pending, accepted, declined, expired and settled; so it does
    for a bet whose [getStatus] read failed. *)
Theorem statusCell_ellipsis :
  (forall status,
     BetListCard.statusCell status = BetListCard.Ellipsis <->
     status <> Some "pending" /\ status <> Some "accepted" /\
     status <> Some "declined" /\ status <> Some "expired" /\
     status <> Some "settled") /\
  (forall (w : World) (rawBet : RawBet) (h : list Event) (fb : FormattedBet)
          status winner judgementReason,
     snd (formatBet w rawBet h) = Resolved fb ->
     chain_reads w rawBet h = Resolved (status, winner, judgementReason) ->
     read_failed status ->
     BetListCard.statusCell (FormattedBet.status fb) = BetListCard.Ellipsis).
Proof.
  split.
  - intros status.
    assert (F : forall literal,
               BetListCard.status_is status literal = false <->
               status <> Some literal).
    { intros literal. pose proof (status_is_true status literal) as T.
      destruct (BetListCard.status_is status literal); split; intros H.
      - discriminate.
      - exfalso. apply H, T. reflexivity.
      - intros E. apply T in E. discriminate.
      - reflexivity. }
    unfold BetListCard.statusCell. split.
    + intros H.
      destruct (BetListCard.status_is status "pending") eqn:E1; [discriminate|].
      destruct (BetListCard.status_is status "accepted") eqn:E2; [discriminate|].
      destruct (BetListCard.status_is status "declined") eqn:E3; [discriminate|].
      destruct (BetListCard.status_is status "expired") eqn:E4; [discriminate|].
      destruct (BetListCard.status_is status "settled") eqn:E5; [discriminate|].
      repeat split; apply F; assumption.
    + intros (N1 & N2 & N3 & N4 & N5).
      rewrite (proj2 (F "pending") N1), (proj2 (F "accepted") N2),
        (proj2 (F "declined") N3), (proj2 (F "expired") N4),
        (proj2 (F "settled") N5).
      reflexivity.
  - intros w rawBet h fb st wi jr H C [e ->].
    destruct (formatBet_resolution w rawBet h fb H)
      as (a1 & a2 & a3 & st' & wi' & jr' & n & _ & _ & _ & C' & _ & _ & _ & _ & _
          & _ & Hs & _).
    rewrite C in C'. injection C' as <- <- <-. rewrite Hs. reflexivity.
Qed.

Lemma statusCell_ellipsis_witness :
  BetListCard.statusCell (Some "cancelled") = BetListCard.Ellipsis.
Proof.
  apply (proj2 (proj1 statusCell_ellipsis (Some "cancelled"))).
  repeat split; discriminate.
Defined.




Lemma number_equal_NaN y : number_equal NaN y = false.
Proof. reflexivity. Qed.



Example current_bet_not_a_number :
  exists bet,
    snd (formatBet (world 200 pending_reads) (with_id "five" bet5) []) =
      Resolved bet /\
    BetListCard.isCurrentBet (BetListCard.ViewBet bet) bet = false.
Proof. eexists. split; vm_compute; reflexivity. Qed.

(** ** Times beyond the last date *)

Lemma unix_seconds_beyond s n :
  digits_literal 10 s = Some n ->
  8640000000000 < n -> n * 1000 < 2 ^ 53 ->
  new_Date (number_mul (Number s) (number_literal 1000)) = InvalidDate.
Proof.
  intros H L U. rewrite (Number_decimal s n H).
  destruct n as [|m|m]; try lia.
  unfold number_literal, number_mul, new_Date, TimeClip.
  assert (B : Z.pos (m * 1000) < 2 ^ 53) by (rewrite Pos2Z.inj_mul; exact U).
  assert (Bm : Z.pos m < 2 ^ 53) by lia.
  rewrite (binary_normalize_whole m (digits2_pos_below m Bm)).
  rewrite (binary_normalize_whole 1000) by (cbn; lia).
  rewrite (SFmul_whole m 1000 B).
  rewrite (truncate_whole _ (digits2_pos_below _ B)).
  rewrite Pos2Z.inj_mul.
  replace (Z.abs (Z.pos m * 1000) <=? 8640000000000000) with false; [reflexivity|].
  symmetry. apply Z.leb_gt. lia.
Qed.

(** X15. The bound of the dates is sharp: a raw time of more than 8.64e12
    seconds in decimal text (as far as the product by 1000 is below [2^53])
    gives an invalid date, and [formatBet] does not reject for it. *)
Theorem formatBet_dates_beyond :
  forall (w : World) (rawBet : RawBet) (h : list Event) (fb : FormattedBet),
    snd (formatBet w rawBet h) = Resolved fb ->
    (forall n, digits_literal 10 (RawBet.validUntil rawBet) = Some n ->
               8640000000000 < n -> n * 1000 < 2 ^ 53 ->
               FormattedBet.validUntil fb = InvalidDate) /\
    (forall n, digits_literal 10 (RawBet.createdTime rawBet) = Some n ->
               8640000000000 < n -> n * 1000 < 2 ^ 53 ->
               FormattedBet.createdTime fb = InvalidDate).
Proof.
  intros w rawBet h fb H.
  destruct (formatBet_resolution w rawBet h fb H)
    as (a1 & a2 & a3 & st & wi & jr & n & _ & _ & _ & _ & _ & _ & _ & _ & Hv & Hc & _).
  rewrite Hv, Hc.
  split; intros m Hm Lm Um; apply (unix_seconds_beyond _ m); assumption.
Qed.

Lemma formatBet_dates_beyond_witness :
  exists fb,
    snd (formatBet (world 200 pending_reads)
           (with_validUntil "8640000000001" bet5) []) = Resolved fb /\
    FormattedBet.validUntil fb = InvalidDate.
Proof.
  destruct (formatBet (world 200 pending_reads)
              (with_validUntil "8640000000001" bet5) [])
    as [t [fb|e]] eqn:E; [|vm_compute in E; discriminate].
  exists fb. split; [reflexivity|].
  apply (proj1 (formatBet_dates_beyond (world 200 pending_reads)
                  (with_validUntil "8640000000001" bet5) [] fb
                  (f_equal snd E))
               8640000000001 eq_refl).
  - lia.
  - change (2 ^ 53) with 9007199254740992. lia.
Defined.
